(** * ssg: the page-conversion core of the Notion static site generator

    A shallow embedding of the pure part of [NotionSSG]: [extractTitle],
    [extractMetadata], [processBlocks], [extractRichText] and [slugify].

    The program receives JSON from the Notion API and reads it through
    untyped property accesses guarded by [||] and [&&].  The embedding
    therefore works on JavaScript values: property reads on [undefined] and
    [null] raise a [TypeError], truthiness decides every guard, and string
    conversion is the one template literals, [Array.prototype.join] and
    computed property keys use, which raises a [TypeError] on an object that
    cannot be converted.

    Strings.  A JavaScript string is a sequence of UTF-16 code units.  A
    [string] here is a sequence of code units in the range U+0000..U+00FF,
    one [ascii] per code unit; [toLowerCase], [\s] and [\w] are given for
    that range. *)

From Stdlib Require Import String Ascii NArith List Bool Lia.
From stdpp Require Import base option strings list gmap pretty.

Local Open Scope string_scope.
Local Open Scope list_scope.

(** ** Characters and character classes *)

Definition code_unit (c : ascii) : N := N_of_ascii c.

Definition in_range (lo hi : N) (c : ascii) : bool :=
  ((lo <=? code_unit c) && (code_unit c <=? hi))%N.

Definition is_upper (c : ascii) : bool := in_range 65 90 c.
Definition is_lower (c : ascii) : bool := in_range 97 122 c.
Definition is_digit (c : ascii) : bool := in_range 48 57 c.
Definition is_hyphen (c : ascii) : bool := (code_unit c =? 45)%N.
Definition is_underscore (c : ascii) : bool := (code_unit c =? 95)%N.

(** [\w] without the [i] and [u] flags: [A-Za-z0-9_]. *)
Definition is_word (c : ascii) : bool :=
  is_upper c || is_lower c || is_digit c || is_underscore c.

(** [\s], which is also what [trim] removes: TAB, LF, VT, FF, CR, space and
    U+00A0 are the white space and line terminators below U+0100. *)
Definition is_space (c : ascii) : bool :=
  in_range 9 13 c || (code_unit c =? 32)%N || (code_unit c =? 160)%N.

(** The characters [slugify] produces between hyphens. *)
Definition is_lower_alnum (c : ascii) : bool := is_lower c || is_digit c.

(** The upper-case letters below U+0100 are A-Z, U+00C0..U+00D6 and
    U+00D8..U+00DE; each has its lower-case letter 32 code units further. *)
Definition lower_char (c : ascii) : ascii :=
  if is_upper c || (in_range 192 222 c && negb (code_unit c =? 215)%N)
  then ascii_of_N (code_unit c + 32)
  else c.

(** ** String operations used by the program *)

Fixpoint drop_leading (p : ascii -> bool) (l : list ascii) : list ascii :=
  match l with
  | [] => []
  | c :: r => if p c then drop_leading p r else l
  end.

Fixpoint drop_trailing (p : ascii -> bool) (l : list ascii) : list ascii :=
  match l with
  | [] => []
  | c :: r =>
      match drop_trailing p r with
      | [] => if p c then [] else [c]
      | r' => c :: r'
      end
  end.

(** [String.prototype.toLowerCase]. *)
Definition toLowerCase (s : string) : string :=
  string_of_list_ascii (map lower_char (list_ascii_of_string s)).

(** [String.prototype.trim]. *)
Definition trim_chars (l : list ascii) : list ascii :=
  drop_trailing is_space (drop_leading is_space l).

Definition trim (s : string) : string :=
  string_of_list_ascii (trim_chars (list_ascii_of_string s)).

(** [.replace(/[^\w\s-]/g, "")]: every character outside the class
    [\w], [\s], [-] is deleted. *)
Definition keeps (c : ascii) : bool := is_word c || is_space c || is_hyphen c.

Definition remove_disallowed (l : list ascii) : list ascii := List.filter keeps l.

(** [.replace(/[\s_-]+/g, "-")]: the regular expression is greedy, so each
    match is a maximal run of separators; [in_run] tells that the previous
    character belonged to the run whose hyphen has been emitted. *)
Definition is_separator (c : ascii) : bool :=
  is_space c || is_underscore c || is_hyphen c.

Fixpoint collapse_runs (in_run : bool) (l : list ascii) : list ascii :=
  match l with
  | [] => []
  | c :: r =>
      if is_separator c
      then (if in_run then collapse_runs true r else "-"%char :: collapse_runs true r)
      else c :: collapse_runs false r
  end.

Definition collapse_separators (l : list ascii) : list ascii := collapse_runs false l.

(** [.replace(/^-+|-+$/g, "")]: the first alternative matches the hyphens the
    string starts with, the second the hyphens it ends with; a hyphen run in
    the middle matches neither. *)
Definition strip_hyphens (l : list ascii) : list ascii :=
  drop_trailing is_hyphen (drop_leading is_hyphen l).

Definition slug_chars (l : list ascii) : list ascii :=
  strip_hyphens (collapse_separators (remove_disallowed l)).

(** [slugify] *)
Definition slugify (text : string) : string :=
  let slug := trim (toLowerCase text) in
  string_of_list_ascii (slug_chars (list_ascii_of_string slug)).

(** ** JavaScript values *)

(** The values [JSON.parse] produces, [undefined] (what a read of a missing
    property gives), and [Builtin], a function object inherited from a
    prototype.  The fields of an object are listed in the order
    [Object.entries] enumerates them.  The program does no arithmetic: it
    tests numbers for truth, compares one with 200 and converts them to
    strings, so a number is given by its decimal form, the string
    [Number.prototype.toString] returns for it. *)
#[warnings="-register-all"]
Inductive value : Type :=
  | Undefined
  | Null
  | Bool (b : bool)
  | Num (digits : string)
  | Str (s : string)
  | Arr (elems : list value)
  | Obj (fields : list (string * value))
  | Builtin (name : string).

Inductive exn : Type := TypeError.

Inductive result (A : Type) : Type :=
  | Ok (a : A)
  | Throw (e : exn).

Arguments Ok {A} a.
Arguments Throw {A} e.

#[global] Instance result_ret : MRet result := fun A a => Ok a.
#[global] Instance result_bind : MBind result := fun A B f m =>
  match m with
  | Ok a => f a
  | Throw e => Throw e
  end.

(** A [for ... of] loop over [l] whose body updates the state [s]. *)
Fixpoint for_of {A S : Type} (l : list A) (s : S) (body : S -> A -> result S)
  : result S :=
  match l with
  | [] => Ok s
  | x :: r => s' ← body s x; for_of r s' body
  end.

(** [Array.prototype.map] on the elements of an array. *)
Fixpoint map_elems {A B : Type} (f : A -> result B) (l : list A) : result (list B) :=
  match l with
  | [] => Ok []
  | x :: r => y ← f x; ys ← map_elems f r; Ok (y :: ys)
  end.

Definition is_nullish (v : value) : bool :=
  match v with
  | Undefined | Null => true
  | _ => false
  end.

(** ToBoolean. *)
Definition truthy (v : value) : bool :=
  match v with
  | Undefined | Null => false
  | Bool b => b
  | Num digits => negb (String.eqb digits "0") && negb (String.eqb digits "NaN")
  | Str s => negb (String.eqb s "")
  | Arr _ | Obj _ | Builtin _ => true
  end.

(** [a || b] for operands without effects. *)
Definition or_else (a b : value) : value := if truthy a then a else b.

Section Join.
Variable render : value -> result string.

(** [Array.prototype.join] prints [undefined] and [null] as nothing. *)
Definition elem_text (v : value) : result string :=
  if is_nullish v then Ok "" else render v.

Fixpoint join_with (sep : string) (l : list value) : result string :=
  match l with
  | [] => Ok ""
  | [x] => elem_text x
  | x :: r => a ← elem_text x; b ← join_with sep r; Ok (a +:+ sep +:+ b)
  end.
End Join.

Fixpoint has_field (k : string) (fields : list (string * value)) : bool :=
  match fields with
  | [] => false
  | (k', _) :: r => String.eqb k k' || has_field k r
  end.

(** ToString, as applied by template literals, by [join] and to computed
    property keys.  An object is converted by the [toString] it inherits,
    unless it has a field of that name: a field of a parsed object is data,
    not a function, the inherited [valueOf] then returns the object itself,
    and the conversion throws.  An array is converted by joining its
    elements with commas. *)
Fixpoint to_string (v : value) : result string :=
  match v with
  | Undefined => Ok "undefined"
  | Null => Ok "null"
  | Bool true => Ok "true"
  | Bool false => Ok "false"
  | Num digits => Ok digits
  | Str s => Ok s
  | Arr l => join_with to_string "," l
  | Obj fields =>
      if has_field "toString" fields then Throw TypeError else Ok "[object Object]"
  | Builtin name => Ok ("function " +:+ name +:+ "() { [native code] }")
  end.

(** [parts.join(sep)] *)
Definition join (sep : string) (parts : list value) : result string :=
  join_with to_string sep parts.

Fixpoint lookup_field (k : string) (fields : list (string * value)) : value :=
  match fields with
  | [] => Undefined
  | (k', v) :: r => if String.eqb k k' then v else lookup_field k r
  end.

(** The own element of an array-like at the index that [k] spells. *)
Fixpoint lookup_index {A : Type} (k : string) (i : nat) (l : list A) : option A :=
  match l with
  | [] => None
  | x :: r => if String.eqb k (pretty i) then Some x else lookup_index k (S i) r
  end.

Definition char_values (s : string) : list value :=
  map (fun c => Str (String c EmptyString)) (list_ascii_of_string s).

(** [v.k] and [v[k]].  A read on [undefined] or [null] throws; an object
    gives its own field or [undefined]; arrays and strings have [length] and
    their indices.  Inherited properties are function objects: of the
    property names the program reads, [bold] on a string
    ([String.prototype.bold]) and [map] on an array are inherited, and no
    other.  The computed read [block[blockType]] can reach further inherited
    names; its value is used only under a recognised tag, and no tag is an
    inherited name. *)
Definition get (v : value) (k : string) : result value :=
  match v with
  | Undefined | Null => Throw TypeError
  | Obj fields => Ok (lookup_field k fields)
  | Arr l =>
      if String.eqb k "length" then Ok (Num (pretty (length l)))
      else if String.eqb k "map" then Ok (Builtin "map")
      else Ok (default Undefined (lookup_index k 0 l))
  | Str s =>
      if String.eqb k "length" then Ok (Num (pretty (String.length s)))
      else if String.eqb k "bold" then Ok (Builtin "bold")
      else Ok (default Undefined (lookup_index k 0 (char_values s)))
  | Bool _ | Num _ | Builtin _ => Ok Undefined
  end.

(** [v?.k] *)
Definition get_opt (v : value) (k : string) : result value :=
  if is_nullish v then Ok Undefined else get v k.

(** The values a [for ... of] loop visits: the elements of an array, the
    characters of a string; every other value is not iterable. *)
Definition iterate (v : value) : result (list value) :=
  match v with
  | Arr l => Ok l
  | Str s => Ok (char_values s)
  | _ => Throw TypeError
  end.

(** [v.map(f)]: only an array has a callable [map]; the [map] field of a
    parsed object is data, and calling it throws. *)
Definition call_map (v : value) (f : value -> result value) : result (list value) :=
  match v with
  | Arr l => map_elems f l
  | _ => Throw TypeError
  end.

Fixpoint indexed {A : Type} (i : nat) (l : list A) : list (string * A) :=
  match l with
  | [] => []
  | x :: r => (pretty i, x) :: indexed (S i) r
  end.

(** [Object.entries(v)] for a value that is not [undefined] or [null]. *)
Definition entries (v : value) : list (string * value) :=
  match v with
  | Obj fields => fields
  | Arr l => indexed 0 l
  | Str s => indexed 0 (char_values s)
  | _ => []
  end.

(** ** Rich text: [extractRichText] *)

Definition nl : string := String (ascii_of_nat 10) EmptyString.

(** [`${mark}${content}${mark}`] *)
Definition wrap (mark : string) (content : value) : result value :=
  s ← to_string content;
  Ok (Str (mark +:+ s +:+ mark)).

(** The body of the loop over [richText]; [parts] is the array it pushes to. *)
Definition render_span (parts : list value) (text : value) : result (list value) :=
  plain_text ← get text "plain_text";
  let content := or_else plain_text (Str "") in
  a ← get text "annotations";
  let annotations := or_else a (Obj []) in
  bold ← get annotations "bold";
  content ← (if truthy bold then wrap "**" content else Ok content);
  italic ← get annotations "italic";
  content ← (if truthy italic then wrap "*" content else Ok content);
  strikethrough ← get annotations "strikethrough";
  content ← (if truthy strikethrough then wrap "~~" content else Ok content);
  code ← get annotations "code";
  content ← (if truthy code then wrap "`" content else Ok content);
  Ok (parts ++ [content]).

Definition extractRichText (richText : value) : result string :=
  spans ← iterate richText;
  parts ← for_of spans [] render_span;
  join "" parts.

(** ** Blocks: [processBlocks] *)

Inductive tag : Type :=
  | Paragraph | Heading1 | Heading2 | Heading3
  | BulletedListItem | NumberedListItem | ToDo | Code
  | Image | Quote | Divider | Callout.

(** The [case] labels of the [switch]. *)
Definition tag_names : list (string * tag) :=
  [ ("paragraph", Paragraph); ("heading_1", Heading1); ("heading_2", Heading2);
    ("heading_3", Heading3); ("bulleted_list_item", BulletedListItem);
    ("numbered_list_item", NumberedListItem); ("to_do", ToDo); ("code", Code);
    ("image", Image); ("quote", Quote); ("divider", Divider);
    ("callout", Callout) ].

Fixpoint find_tag (s : string) (names : list (string * tag)) : option tag :=
  match names with
  | [] => None
  | (name, t) :: r => if String.eqb s name then Some t else find_tag s r
  end.

(** [switch] compares with [===]: only a string selects a case. *)
Definition recognise (blockType : value) : option tag :=
  match blockType with
  | Str s => find_tag s tag_names
  | _ => None
  end.

(** [this.extractRichText(blockData.field || [])] *)
Definition rich_text_of (blockData : value) (field : string) : result string :=
  rt ← get blockData field;
  extractRichText (or_else rt (Arr [])).

(** The [switch] on [blockType]; [content] is the array it pushes to. *)
Definition dispatch (content : list string) (blockType blockData : value)
  : result (list string) :=
  match recognise blockType with
  | Some Paragraph =>
      paragraphText ← rich_text_of blockData "rich_text";
      Ok (content ++ [paragraphText +:+ nl +:+ nl])
  | Some Heading1 =>
      h1Text ← rich_text_of blockData "rich_text";
      Ok (content ++ ["# " +:+ h1Text +:+ nl +:+ nl])
  | Some Heading2 =>
      h2Text ← rich_text_of blockData "rich_text";
      Ok (content ++ ["## " +:+ h2Text +:+ nl +:+ nl])
  | Some Heading3 =>
      h3Text ← rich_text_of blockData "rich_text";
      Ok (content ++ ["### " +:+ h3Text +:+ nl +:+ nl])
  | Some BulletedListItem =>
      bulletText ← rich_text_of blockData "rich_text";
      Ok (content ++ ["* " +:+ bulletText +:+ nl])
  | Some NumberedListItem =>
      numberedText ← rich_text_of blockData "rich_text";
      Ok (content ++ ["1. " +:+ numberedText +:+ nl])
  | Some ToDo =>
      todoText ← rich_text_of blockData "rich_text";
      c ← get blockData "checked";
      let checked := if truthy c then "x" else " " in
      Ok (content ++ ["- [" +:+ checked +:+ "] " +:+ todoText +:+ nl])
  | Some Code =>
      codeText ← rich_text_of blockData "rich_text";
      l ← get blockData "language";
      let language := or_else l (Str "") in
      language_text ← to_string language;
      Ok (content ++ ["```" +:+ language_text +:+ nl +:+ codeText +:+ nl
                        +:+ "```" +:+ nl +:+ nl])
  | Some Image =>
      caption ← rich_text_of blockData "caption";
      file ← get blockData "file";
      file_url ← get_opt file "url";
      u ← (if truthy file_url then Ok file_url
           else external ← get blockData "external"; get_opt external "url");
      let url := or_else u (Str "") in
      if truthy url
      then
        url_text ← to_string url;
        Ok (content ++ ["![" +:+ caption +:+ "](" +:+ url_text +:+ ")" +:+ nl +:+ nl])
      else Ok content
  | Some Quote =>
      quoteText ← rich_text_of blockData "rich_text";
      Ok (content ++ ["> " +:+ quoteText +:+ nl +:+ nl])
  | Some Divider =>
      Ok (content ++ ["---" +:+ nl +:+ nl])
  | Some Callout =>
      calloutText ← rich_text_of blockData "rich_text";
      icon ← get blockData "icon";
      e ← get_opt icon "emoji";
      let emoji := or_else e (Str "") in
      emoji_text ← to_string emoji;
      Ok (content ++ ["> " +:+ emoji_text +:+ " " +:+ calloutText +:+ nl +:+ nl])
  | None => Ok content
  end.

(** The body of the loop over [blocks].  The computed read
    [block[blockType]] converts [blockType] to a property key. *)
Definition process_block (content : list string) (block : value)
  : result (list string) :=
  blockType ← get block "type";
  key ← to_string blockType;
  d ← get block key;
  let blockData := or_else d (Obj []) in
  dispatch content blockType blockData.

Definition processBlocks (blocks : list value) : result string :=
  content ← for_of blocks [] process_block;
  Ok (String.concat "" content).

(** ** Title and metadata: [extractTitle], [extractMetadata] *)

Definition extractTitle (page : value) : result string :=
  p ← get page "properties";
  let properties := or_else p (Obj []) in
  name ← get properties "Name";
  titleProp ← (if truthy name then Ok name else get properties "Title");
  title ← (if truthy titleProp then get titleProp "title" else Ok titleProp);
  if truthy title
  then
    titleParts ← call_map title (fun part =>
      plain_text ← get part "plain_text"; Ok (or_else plain_text (Str "")));
    join "" titleParts
  else Ok "Untitled".

(** The object [metadata]: its own fields and its prototype, which an
    assignment to [__proto__] can replace.  The prototype is that of an
    object literal, [null], or an object, array or function value. *)
Inductive prototype : Type :=
  | ObjectPrototype
  | NoPrototype
  | ValuePrototype (v : value).

Record js_object : Type := JsObject {
  own : gmap string value;
  proto : prototype
}.

Definition is_object (v : value) : bool :=
  match v with
  | Arr _ | Obj _ | Builtin _ => true
  | _ => false
  end.

(** An assignment to a name that is not an own field walks the prototype
    chain.  For [__proto__] it ends at the accessor of [Object.prototype],
    unless the chain is cut ([null]) or a data field of that name is found
    first, which only a parsed object can have. *)
Definition reaches_proto_accessor (p : prototype) : bool :=
  match p with
  | ObjectPrototype => true
  | NoPrototype => false
  | ValuePrototype (Obj fields) => negb (has_field "__proto__" fields)
  | ValuePrototype _ => true
  end.

(** [metadata[k] = v].  Every name but [__proto__] becomes an own field; so
    does [__proto__] when it is one already or the accessor is not reached.
    The accessor replaces the prototype when [v] is an object or [null] and
    does nothing otherwise. *)
Definition set_field (k : string) (v : value) (metadata : js_object) : js_object :=
  if negb (String.eqb k "__proto__")
     || bool_decide (is_Some (own metadata !! k))
     || negb (reaches_proto_accessor (proto metadata))
  then {| own := <[k := v]> (own metadata); proto := proto metadata |}
  else if is_object v then {| own := own metadata; proto := ValuePrototype v |}
  else match v with
       | Null => {| own := own metadata; proto := NoPrototype |}
       | _ => metadata
       end.

(** [propType === "name" && prop.name]: the payload is read only when the
    declared type matches. *)
Definition typed_payload (prop propType : value) (name : string) : result value :=
  match propType with
  | Str s => if String.eqb s name then get prop name else Ok (Bool false)
  | _ => Ok (Bool false)
  end.

(** The body of the loop over [Object.entries(properties)]. *)
Definition extract_property (metadata : js_object) (entry : string * value)
  : result js_object :=
  let '(key, prop) := entry in
  propType ← get prop "type";
  select ← typed_payload prop propType "select";
  if truthy select
  then
    name ← get select "name";
    Ok (set_field (toLowerCase key) (or_else name (Str "")) metadata)
  else
    multi_select ← typed_payload prop propType "multi_select";
    if truthy multi_select
    then
      names ← call_map multi_select (fun item =>
        name ← get item "name"; Ok (or_else name (Str "")));
      Ok (set_field (toLowerCase key) (Arr names) metadata)
    else
      date ← typed_payload prop propType "date";
      if truthy date
      then
        start ← get date "start";
        Ok (set_field (toLowerCase key) (or_else start (Str "")) metadata)
      else Ok metadata.

(** The fields of the object literal [metadata] starts from. *)
Definition fixed_fields (created_time last_edited_time url : value)
  : gmap string value :=
  <["url" := or_else url (Str "")]>
    (<["lastEditedTime" := or_else last_edited_time (Str "")]>
       (<["createdTime" := or_else created_time (Str "")]> ∅)).

(** [extractMetadata]; the record it returns is given by its own fields.
    Its prototype, which only an entry whose name lower-cases to [__proto__]
    can replace, is not part of the result. *)
Definition extractMetadata (page : value) : result (gmap string value) :=
  p ← get page "properties";
  let properties := or_else p (Obj []) in
  created_time ← get page "created_time";
  last_edited_time ← get page "last_edited_time";
  url ← get page "url";
  metadata ← for_of (entries properties)
                {| own := fixed_fields created_time last_edited_time url;
                   proto := ObjectPrototype |}
                extract_property;
  Ok (own metadata).

(** ** Vocabulary of the statements *)

(** [v.k] where the read is known not to throw. *)
Definition read (v : value) (k : string) : value :=
  match get v k with
  | Ok x => x
  | Throw _ => Undefined
  end.

(** [v?.k] *)
Definition read_opt (v : value) (k : string) : value :=
  if is_nullish v then Undefined else read v k.

(** The conversion of [v] to a string returns. *)
Definition printable (v : value) : bool :=
  match to_string v with
  | Ok _ => true
  | Throw _ => false
  end.

(** The string [v] converts to, where the conversion is known to return. *)
Definition text_of (v : value) : string :=
  match to_string v with
  | Ok s => s
  | Throw _ => ""
  end.

(** A text span as the renderer sees it: its plain text and the four flags
    it tests.  Underline and colour are not read. *)
Record style : Type := Style {
  plain : string;
  bold : bool;
  italic : bool;
  strikethrough : bool;
  code : bool
}.

Definition flag (annotations : value) (k : string) : bool :=
  truthy (read annotations k).

(** [text] is a span object carrying the plain text and flags of [st]. *)
Definition styled (text : value) (st : style) : Prop :=
  is_nullish text = false /\
  read text "plain_text" = Str (plain st) /\
  truthy (read text "annotations") = true /\
  flag (read text "annotations") "bold" = bold st /\
  flag (read text "annotations") "italic" = italic st /\
  flag (read text "annotations") "strikethrough" = strikethrough st /\
  flag (read text "annotations") "code" = code st.

Definition mark_if (on : bool) (mark t : string) : string :=
  if on then mark +:+ t +:+ mark else t.

(** The nesting the renderer produces: bold is applied first and so ends up
    innermost, code is applied last and so ends up outermost. *)
Definition nested_markup (st : style) : string :=
  mark_if (code st) "`"
    (mark_if (strikethrough st) "~~"
       (mark_if (italic st) "*"
          (mark_if (bold st) "**" (plain st)))).

(** The nesting the specification describes: bold outermost, then italic,
    then strikethrough, code innermost. *)
Definition spec_nested_markup (st : style) : string :=
  mark_if (bold st) "**"
    (mark_if (italic st) "*"
       (mark_if (strikethrough st) "~~"
          (mark_if (code st) "`" (plain st)))).

(** The span object [{plain_text, annotations: {bold, italic,
    strikethrough, underline, code, color}}] of the Notion API. *)
Definition span_of (st : style) : value :=
  Obj [ ("type", Str "text");
        ("plain_text", Str (plain st));
        ("annotations",
          Obj [ ("bold", Bool (bold st)); ("italic", Bool (italic st));
                ("strikethrough", Bool (strikethrough st));
                ("underline", Bool false); ("code", Bool (code st));
                ("color", Str "default") ]) ].

(** The characters of a slug: [a-z], [0-9] and the hyphen. *)
Definition is_slug_char (c : ascii) : bool := is_lower_alnum c || is_hyphen c.

(** [after_hyphen] tells that the previous character was a hyphen: a clean
    list has slug characters only and no two hyphens in a row. *)
Fixpoint clean (after_hyphen : bool) (l : list ascii) : bool :=
  match l with
  | [] => true
  | c :: r =>
      if is_hyphen c then negb after_hyphen && clean true r
      else is_lower_alnum c && clean false r
  end.

(** What [slugify] does to the characters of its argument. *)
Definition slug_of_chars (l : list ascii) : list ascii :=
  slug_chars (trim_chars (map lower_char l)).

(** A list in slug form: slug characters only, no two hyphens in a row, no
    hyphen at either end. *)
Definition slug_form (l : list ascii) : Prop :=
  clean false l = true /\
  drop_leading is_hyphen l = l /\
  drop_trailing is_hyphen l = l.

Definition starts_with_hyphen (s : string) : bool :=
  match s with
  | String c _ => is_hyphen c
  | EmptyString => false
  end.

Definition ends_with_hyphen (s : string) : bool :=
  match last (list_ascii_of_string s) with
  | Some c => is_hyphen c
  | None => false
  end.

(** The tag of a block and the payload the loop body binds to [blockData],
    for a block that is not [undefined] or [null]. *)
Definition block_tag (block : value) : option tag := recognise (read block "type").

Definition block_data (block : value) : value :=
  or_else (read block (text_of (read block "type"))) (Obj []).

(** A block whose type tag is none of the [case] labels: any other string,
    a missing tag, or any other value that converts to a property key. *)
Definition unrecognised (block : value) : bool :=
  negb (is_nullish block) &&
  printable (read block "type") &&
  match block_tag block with
  | None => true
  | Some _ => false
  end.

(** The spans [extractRichText] renders without throwing: not [undefined]
    or [null], and with a plain text that converts to a string. *)
Definition span_ok (text : value) : bool :=
  negb (is_nullish text) &&
  printable (or_else (read text "plain_text") (Str "")).

(** The rich-text values [extractRichText] renders without throwing: an
    absent value (replaced by the empty array), an array of such spans, or a
    string. *)
Definition spans_ok (rt : value) : bool :=
  match or_else rt (Arr []) with
  | Arr l => forallb span_ok l
  | Str _ => true
  | _ => false
  end.

(** The payload field a tag hands to [extractRichText]. *)
Definition text_field (t : tag) : option string :=
  match t with
  | Divider => None
  | Image => Some "caption"
  | _ => Some "rich_text"
  end.

(** The URL an image block resolves to: that of the uploaded file, else the
    external one. *)
Definition image_url (blockData : value) : value :=
  or_else
    (if truthy (read_opt (read blockData "file") "url")
     then read_opt (read blockData "file") "url"
     else read_opt (read blockData "external") "url")
    (Str "").

(** The values a tag converts to a string besides its rich text: the
    language of a code block, the URL of an image when there is one, the
    emoji of a callout. *)
Definition extras_ok (t : tag) (blockData : value) : bool :=
  match t with
  | Code => printable (or_else (read blockData "language") (Str ""))
  | Image => negb (truthy (image_url blockData)) || printable (image_url blockData)
  | Callout => printable (or_else (read_opt (read blockData "icon") "emoji") (Str ""))
  | _ => true
  end.

(** A payload of the shape the tag determines: rich text that renders and,
    where the tag prints further values, values that convert to strings.
    Under an unrecognised tag the payload may be anything. *)
Definition payload_ok (blockType blockData : value) : bool :=
  match recognise blockType with
  | None => true
  | Some t =>
      match text_field t with
      | None => true
      | Some field => spans_ok (read blockData field)
      end
      && extras_ok t blockData
  end.

(** A block the loop body processes without throwing: an object whose type
    tag converts to a property key and whose payload has the shape the tag
    determines. *)
Definition well_shaped (block : value) : bool :=
  negb (is_nullish block) &&
  printable (read block "type") &&
  payload_ok (read block "type") (block_data block).

Definition is_numbered_item (block : value) : bool :=
  negb (is_nullish block) &&
  match block_tag block with
  | Some NumberedListItem => true
  | _ => false
  end.

Definition is_image (block : value) : bool :=
  negb (is_nullish block) &&
  match block_tag block with
  | Some Image => true
  | _ => false
  end.

(** [![caption](url)] followed by a blank line. *)
Definition image_markup (caption : string) (url : value) : string :=
  "![" +:+ caption +:+ "](" +:+ text_of url +:+ ")" +:+ nl +:+ nl.

(** The property bag [extractTitle] and [extractMetadata] bind to
    [properties], and the property [extractTitle] binds to [titleProp]. *)
Definition properties_of (page : value) : value :=
  or_else (read page "properties") (Obj []).

Definition title_prop (page : value) : value :=
  or_else (read (properties_of page) "Name") (read (properties_of page) "Title").

(** [titleProp && titleProp.title] *)
Definition title_value (page : value) : value :=
  if truthy (title_prop page) then read (title_prop page) "title" else title_prop page.

(** The page has no property named [k]. *)
Definition lacks (page : value) (k : string) : Prop :=
  read (properties_of page) k = Undefined.

(** The title values [extractTitle] converts without throwing: none, or an
    array of parts none of which is [undefined] or [null] and whose plain
    texts convert to strings. *)
Definition title_ok (page : value) : bool :=
  if truthy (title_value page)
  then match title_value page with
       | Arr l => forallb span_ok l
       | _ => false
       end
  else true.

Definition name_or_empty (item : value) : value := or_else (read item "name") (Str "").

(** The value an entry of the property bag writes, if it writes one: the
    declared type is [select], [multi_select] or [date] and the payload of
    that name is present. *)
Definition extracted (prop : value) : option value :=
  match read prop "type" with
  | Str t =>
      if String.eqb t "select" then
        if truthy (read prop "select")
        then Some (name_or_empty (read prop "select")) else None
      else if String.eqb t "multi_select" then
        match read prop "multi_select" with
        | Arr l => Some (Arr (map name_or_empty l))
        | _ => None
        end
      else if String.eqb t "date" then
        if truthy (read prop "date")
        then Some (or_else (read (read prop "date") "start") (Str "")) else None
      else None
  | _ => None
  end.

(** The declared type is one of the three the extractor handles. *)
Definition declared_dynamic (prop : value) : bool :=
  match read prop "type" with
  | Str t => String.eqb t "select" || String.eqb t "multi_select" || String.eqb t "date"
  | _ => false
  end.

(** The entries [extractMetadata] processes without throwing: the property
    is not [undefined] or [null], and a [multi_select] payload, when
    present, is an array of items none of which is [undefined] or [null]. *)
Definition prop_ok (prop : value) : bool :=
  negb (is_nullish prop) &&
  match read prop "type" with
  | Str t =>
      if String.eqb t "multi_select" && truthy (read prop "multi_select")
      then match read prop "multi_select" with
           | Arr l => forallb (fun item => negb (is_nullish item)) l
           | _ => false
           end
      else true
  | _ => true
  end.

Definition props_ok (page : value) : bool :=
  forallb (fun entry => prop_ok (snd entry)) (entries (properties_of page)).

(** The value an entry writes under [k], if it writes there. *)
Definition writes (k : string) (entry : string * value) : option value :=
  if String.eqb (toLowerCase (fst entry)) k then extracted (snd entry) else None.

(** The value written under [k] by the last entry of [es] that writes
    there. *)
Fixpoint last_write (k : string) (es : list (string * value)) : option value :=
  match es with
  | [] => None
  | entry :: r =>
      match last_write k r with
      | Some v => Some v
      | None => writes k entry
      end
  end.

(** The three fields every metadata record starts from. *)
Definition page_fields (page : value) : gmap string value :=
  fixed_fields (read page "created_time") (read page "last_edited_time")
               (read page "url").

(** The metadata claim as the specification words it: the fixed fields hold
    the page-level values, every entry of declared type [select],
    [multi_select] or [date] has a field under its lower-cased name, and that
    field holds what the entry carries. *)
Definition spec_metadata (page : value) (m : gmap string value) : Prop :=
  m !! "createdTime" = page_fields page !! "createdTime" /\
  m !! "lastEditedTime" = page_fields page !! "lastEditedTime" /\
  m !! "url" = page_fields page !! "url" /\
  forall key prop,
    In (key, prop) (entries (properties_of page)) ->
    declared_dynamic prop = true ->
    exists v, m !! toLowerCase key = Some v /\ extracted prop = Some v.

(** ** Sample data *)

Definition plain_span (t : string) : value := span_of (Style t false false false false).

Definition block_of (t : string) (payload : list (string * value)) : value :=
  Obj [ ("object", Str "block"); ("id", Str "b"); ("type", Str t); (t, Obj payload) ].

Definition select_prop (name : string) : value :=
  Obj [ ("id", Str "p"); ("type", Str "select"); ("select", Obj [ ("name", Str name) ]) ].

Definition title_prop_of (parts : list string) : value :=
  Obj [ ("id", Str "title"); ("type", Str "title");
        ("title", Arr (map plain_span parts)) ].

Definition page_of (url : string) (properties : list (string * value)) : value :=
  Obj [ ("object", Str "page"); ("id", Str "p1");
        ("created_time", Str "2025-01-01T09:00:00.000Z");
        ("last_edited_time", Str "2025-01-02T10:30:00.000Z");
        ("url", Str url);
        ("properties", Obj properties) ].

(** A select property that has no option chosen: the API sends [null]. *)
Definition unset_select : value :=
  Obj [ ("id", Str "p"); ("type", Str "select"); ("select", Null) ].

Definition multi_select_prop (names : list string) : value :=
  Obj [ ("id", Str "p"); ("type", Str "multi_select");
        ("multi_select", Arr (map (fun n => Obj [ ("name", Str n) ]) names)) ].

(** A page with an unset select and two properties whose names differ only
    in case. *)
Definition page_with_unset_select : value :=
  page_of "https://www.notion.so/p1"
    [ ("Name", title_prop_of ["Home"]);
      ("Status", unset_select);
      ("Tags", multi_select_prop ["a"]);
      ("tags", select_prop "b") ].

(** A page with a select property named [Url]. *)
Definition page_with_url_property : value :=
  page_of "https://www.notion.so/p1"
    [ ("Name", title_prop_of ["Home"]);
      ("Url", select_prop "docs") ].

(** ** Configuration: the constructor and [--init] *)

(** The configuration object, a record of named settings. *)
Definition config_field (config : gmap string value) (k : string) : value :=
  default Undefined (config !! k).

(** The configuration the constructor starts from; the two arguments are
    [process.env.NOTION_TOKEN] and [process.env.NOTION_DATABASE_ID]. *)
Definition default_config (env_token env_database : value) : gmap string value :=
  <["staticDir" := Str "static"]>
    (<["templatesDir" := Str "templates"]>
       (<["outputDir" := Str "dist"]>
          (<["databaseId" := or_else env_database (Str "")]>
             (<["notionToken" := or_else env_token (Str "")]> ∅)))).

(** [{ ...config, ...userConfig }]: the own fields of [userConfig] are copied
    over [config] in order. *)
Definition spread (config : gmap string value) (userConfig : value)
  : gmap string value :=
  fold_left (fun c entry => <[fst entry := snd entry]> c) (entries userConfig) config.

(** The configuration the constructor ends with.  [file] is [None] when
    there is no configuration file, [Some None] when reading or parsing it
    throws (the error is logged and the defaults stay), and [Some (Some v)]
    when it parses to [v]. *)
Definition load_config (env_token env_database : value) (file : option (option value))
  : gmap string value :=
  match file with
  | Some (Some userConfig) => spread (default_config env_token env_database) userConfig
  | _ => default_config env_token env_database
  end.

(** The object [--init] writes to [ssg_config.json], as it parses back. *)
Definition init_config : value :=
  Obj [ ("notionToken", Str ""); ("databaseId", Str "");
        ("outputDir", Str "dist"); ("templatesDir", Str "templates");
        ("staticDir", Str "static") ].

(** ** Fetching: [fetchNotionData] *)

(** [PageData] *)
Record PageData : Type := {
  page_id : value;
  page_title : string;
  page_content : string;
  page_metadata : gmap string value
}.

(** The errors [fetchNotionData] throws: the one of its guard, the one its
    [catch] clause makes of whatever the [try] block throws, and what is
    thrown before the [try] block is entered. *)
Inductive fetch_error : Type :=
  | MissingCredentials
  | FetchFailed
  | Uncaught (e : exn).

Inductive fetched : Type :=
  | Fetched (contentData : list PageData)
  | Failed (e : fetch_error).

(** Inside the [try] block it does not matter what is thrown. *)
Definition attempt {A : Type} (r : result A) : option A :=
  match r with
  | Ok a => Some a
  | Throw _ => None
  end.

(** A [for ... of] loop inside the [try] block. *)
Fixpoint for_of_try {A S : Type} (l : list A) (s : S) (body : S -> A -> option S)
  : option S :=
  match l with
  | [] => Some s
  | x :: r => s' ← body s x; for_of_try r s' body
  end.

(** [status === 200] *)
Definition is_200 (status : value) : bool :=
  match status with
  | Num digits => String.eqb digits "200"
  | _ => false
  end.

Definition children_url (pageId : value) : result string :=
  id ← to_string pageId;
  Ok ("https://api.notion.com/v1/blocks/" +:+ id +:+ "/children").

Definition database_url (databaseId : value) : result string :=
  id ← to_string databaseId;
  Ok ("https://api.notion.com/v1/databases/" +:+ id +:+ "/query").

(** The [Authorization] header, once the token has been converted to a
    string. *)
Definition authorization_of (config : gmap string value) : string :=
  "Bearer " +:+ text_of (config_field config "notionToken").

Section Fetch.
(** The two requests, by URL and [Authorization] header; [None] when the
    request throws. *)
Variable axios_post : string -> string -> option value.
Variable axios_get : string -> string -> option value.

(** The body of the loop over [pages]. *)
Definition fetch_page (authorization : string) (contentData : list PageData)
    (page : value) : option (list PageData) :=
  pageId ← attempt (get page "id");
  pageUrl ← attempt (children_url pageId);
  blocksResponse ← axios_get pageUrl authorization;
  status ← attempt (get blocksResponse "status");
  if is_200 status
  then
    title ← attempt (extractTitle page);
    data ← attempt (get blocksResponse "data");
    results ← attempt (get data "results");
    blocks ← attempt (iterate results);
    content ← attempt (processBlocks blocks);
    metadata ← attempt (extractMetadata page);
    Some (contentData ++ [ {| page_id := pageId; page_title := title;
                              page_content := content;
                              page_metadata := metadata |} ])
  else Some contentData.

(** The query of the database: its pages. *)
Definition query_pages (config : gmap string value) : option (list value) :=
  databaseUrl ← attempt (database_url (config_field config "databaseId"));
  databaseResponse ← axios_post databaseUrl (authorization_of config);
  data ← attempt (get databaseResponse "data");
  pages ← attempt (get data "results");
  attempt (iterate pages).

(** The headers are built before the [try] block: a token that does not
    convert to a string throws past the [catch] clause. *)
Definition fetchNotionData (config : gmap string value) : fetched :=
  if negb (truthy (config_field config "notionToken"))
     || negb (truthy (config_field config "databaseId"))
  then Failed MissingCredentials
  else
    match to_string (config_field config "notionToken") with
    | Throw e => Failed (Uncaught e)
    | Ok _ =>
        match pages ← query_pages config;
              for_of_try pages [] (fetch_page (authorization_of config)) with
        | Some contentData => Fetched contentData
        | None => Failed FetchFailed
        end
    end.

(** The response to the request for a page's blocks, and whether the page
    is listed: the request returned with status 200. *)
Definition children_of (config : gmap string value) (page : value) : option value :=
  pageUrl ← attempt (children_url (read page "id"));
  axios_get pageUrl (authorization_of config).

Definition listed (config : gmap string value) (page : value) : bool :=
  match children_of config page with
  | Some blocksResponse => is_200 (read blocksResponse "status")
  | None => false
  end.

(** [contentData] holds what the three extractors return for [page]. *)
Definition page_data_of (config : gmap string value) (page : value) (pd : PageData)
  : Prop :=
  page_id pd = read page "id" /\
  extractTitle page = Ok (page_title pd) /\
  extractMetadata page = Ok (page_metadata pd) /\
  exists blocksResponse blocks,
    children_of config page = Some blocksResponse /\
    iterate (read (read blocksResponse "data") "results") = Ok blocks /\
    processBlocks blocks = Ok (page_content pd).
End Fetch.

(** ** Site generation: [generateSite] *)

(** [`${this.slugify(page.title)}.html`] *)
Definition pageFilename (page : PageData) : string :=
  slugify (page_title page) +:+ ".html".

Section Site.
(** The two template renderings, [ejs.render] of the index template on all
    pages and of the page template on one page (with [marked] applied to its
    content); they may throw. *)
Variable render_index : list PageData -> result string.
Variable render_page : PageData -> result string.

(** The body of the loop over [data].  [files] maps the names of the files
    of the output directory to their contents: a page file name has no path
    separator, so [path.join(outputDir, name)] is the file [name] of that
    directory. *)
Definition write_page (files : gmap string string) (page : PageData)
  : result (gmap string string) :=
  pageContent ← render_page page;
  Ok (<[pageFilename page := pageContent]> files).

(** The files of the output directory after [generateSite(data)] has written
    the index page and the pages; the copy of the static directory, which
    writes below [static], is left out. *)
Definition generateSite (files : gmap string string) (data : list PageData)
  : result (gmap string string) :=
  indexContent ← render_index data;
  for_of data (<["index.html" := indexContent]> files) write_page.

(** The last page of [data] that is written to the file [name]. *)
Fixpoint last_page_named (name : string) (data : list PageData) : option PageData :=
  match data with
  | [] => None
  | page :: r =>
      match last_page_named name r with
      | Some later => Some later
      | None => if String.eqb (pageFilename page) name then Some page else None
      end
  end.
End Site.

(** Three fetched pages; the first and the last have the same slug. *)
Definition sample_pages : list PageData :=
  [ {| page_id := Str "1"; page_title := "My Page"; page_content := "";
       page_metadata := ∅ |};
    {| page_id := Str "2"; page_title := "Index"; page_content := "";
       page_metadata := ∅ |};
    {| page_id := Str "3"; page_title := "my page!"; page_content := "";
       page_metadata := ∅ |} ].

(** A database of two pages: the block request for the first answers with
    status 200 and one paragraph, the one for the second with status 204. *)
Definition sample_post (url authorization : string) : option value :=
  Some (Obj [ ("status", Num "200");
              ("data", Obj [ ("results",
                 Arr [ page_of "https://www.notion.so/p1"
                         [ ("Name", title_prop_of ["Home"]) ];
                       Obj [ ("object", Str "page"); ("id", Str "p2") ] ]) ]) ]).

Definition sample_get (url authorization : string) : option value :=
  if String.eqb url "https://api.notion.com/v1/blocks/p1/children"
  then Some (Obj [ ("status", Num "200");
                   ("data", Obj [ ("results",
                      Arr [ block_of "paragraph"
                              [ ("rich_text", Arr [plain_span "Hello"]) ] ]) ]) ])
  else Some (Obj [ ("status", Num "204"); ("data", Str "") ]).

(** * Proofs *)

(** ** Characters *)

Ltac each_char c :=
  destruct c as [[] [] [] [] [] [] [] []]; vm_compute; try reflexivity;
  try discriminate; try (intros; discriminate); auto.

Lemma lower_char_not_upper c : is_upper (lower_char c) = false.
Proof. each_char c. Qed.

Lemma kept_lower_char c :
  keeps c = true -> is_upper c = false -> is_separator c = false ->
  is_lower_alnum c = true.
Proof. each_char c. Qed.

Lemma slug_char_lower c : is_slug_char c = true -> lower_char c = c.
Proof. each_char c. Qed.

Lemma slug_char_not_space c : is_slug_char c = true -> is_space c = false.
Proof. each_char c. Qed.

Lemma slug_char_kept c : is_slug_char c = true -> keeps c = true.
Proof. each_char c. Qed.

Lemma lower_alnum_not_separator c :
  is_lower_alnum c = true -> is_separator c = false.
Proof. each_char c. Qed.

Lemma hyphen_char c : is_hyphen c = true -> c = "-"%char.
Proof. each_char c. Qed.

Lemma hyphen_separator c : is_hyphen c = true -> is_separator c = true.
Proof. each_char c. Qed.

(** ** Dropping at both ends *)

Section Ends.
Variable p : ascii -> bool.

Lemma drop_leading_length l : length (drop_leading p l) <= length l.
Proof. induction l as [|c r IH]; simpl; [lia|]. destruct (p c); simpl; lia. Qed.

Lemma drop_leading_fixed_head c r :
  drop_leading p (c :: r) = c :: r -> p c = false.
Proof.
  simpl. destruct (p c); [|reflexivity]. intros E.
  pose proof (drop_leading_length r) as L. rewrite E in L. simpl in L. lia.
Qed.

Lemma drop_leading_idem l : drop_leading p (drop_leading p l) = drop_leading p l.
Proof.
  induction l as [|c r IH]; simpl; [reflexivity|].
  destruct (p c) eqn:E; [exact IH|]. simpl. now rewrite E.
Qed.

Lemma drop_trailing_idem l : drop_trailing p (drop_trailing p l) = drop_trailing p l.
Proof.
  induction l as [|c r IH]; simpl; [reflexivity|].
  destruct (drop_trailing p r) as [|x r'] eqn:E.
  - destruct (p c) eqn:Ec; simpl; [reflexivity|]. now rewrite Ec.
  - change (drop_trailing p (c :: x :: r')) with
      (match drop_trailing p (x :: r') with
       | [] => if p c then [] else [c]
       | r'' => c :: r''
       end).
    now rewrite IH.
Qed.

Lemma drop_trailing_keeps_head l :
  drop_leading p l = l -> drop_leading p (drop_trailing p l) = drop_trailing p l.
Proof.
  destruct l as [|c r]; [reflexivity|]. intros E.
  apply drop_leading_fixed_head in E. simpl.
  destruct (drop_trailing p r); rewrite ?E; simpl; now rewrite E.
Qed.

Lemma drop_leading_none l :
  Forall (fun c => p c = false) l -> drop_leading p l = l.
Proof. destruct 1 as [|c r E _]; simpl; [reflexivity|]. now rewrite E. Qed.

Lemma drop_trailing_none l :
  Forall (fun c => p c = false) l -> drop_trailing p l = l.
Proof.
  induction 1 as [|c r E _ IH]; simpl; [reflexivity|].
  rewrite IH, E. now destruct r.
Qed.

Lemma drop_leading_Forall (Q : ascii -> Prop) l :
  Forall Q l -> Forall Q (drop_leading p l).
Proof.
  induction 1 as [|c r Hc Hr IH]; simpl; [constructor|].
  destruct (p c); [exact IH|now constructor].
Qed.

Lemma drop_trailing_Forall (Q : ascii -> Prop) l :
  Forall Q l -> Forall Q (drop_trailing p l).
Proof.
  induction 1 as [|c r Hc Hr IH]; simpl; [constructor|].
  destruct (drop_trailing p r); [destruct (p c)|]; constructor; auto.
Qed.

Lemma drop_trailing_fixed_last l :
  drop_trailing p l = l ->
  match last l with Some c => p c = false | None => True end.
Proof.
  induction l as [|c r IH]; simpl; [trivial|].
  destruct (drop_trailing p r) as [|x r'] eqn:E.
  - destruct (p c) eqn:Ec; [discriminate|]. intros [= <-]. exact Ec.
  - intros [= <-]. destruct r' as [|y r'']; simpl in *; now apply IH.
Qed.
End Ends.

(** ** The shape of a slug *)

Lemma clean_after_hyphen l : clean true l = true -> clean false l = true.
Proof.
  destruct l as [|c r]; simpl; [reflexivity|].
  destruct (is_hyphen c); [discriminate|trivial].
Qed.

Lemma clean_slug_chars b l :
  clean b l = true -> Forall (fun c => is_slug_char c = true) l.
Proof.
  revert b. induction l as [|c r IH]; intros b; simpl; [constructor|].
  unfold is_slug_char. destruct (is_hyphen c) eqn:E; intros H.
  - apply andb_prop in H as [_ H]. constructor; [rewrite E; apply orb_true_r|eauto].
  - apply andb_prop in H as [Hc H]. constructor; [now rewrite Hc|eauto].
Qed.

Lemma clean_collapse b l :
  Forall (fun c => keeps c = true /\ is_upper c = false) l ->
  clean b (collapse_runs b l) = true.
Proof.
  intros H. revert b. induction H as [|c r [Hk Hu] _ IH]; intros b; simpl;
    [reflexivity|].
  destruct (is_separator c) eqn:Es.
  - destruct b; [apply IH|]. simpl. apply IH.
  - simpl. destruct (is_hyphen c) eqn:Eh.
    + apply hyphen_separator in Eh. congruence.
    + now rewrite (kept_lower_char c Hk Hu Es), IH.
Qed.

Lemma collapse_clean b l : clean b l = true -> collapse_runs b l = l.
Proof.
  revert b. induction l as [|c r IH]; intros b; simpl; [reflexivity|].
  destruct (is_hyphen c) eqn:Eh; intros H; apply andb_prop in H as [H1 H2].
  - rewrite (hyphen_separator c Eh). destruct b; [discriminate|].
    now rewrite (IH true H2), (hyphen_char c Eh).
  - now rewrite (lower_alnum_not_separator c H1), (IH false H2).
Qed.

Lemma clean_drop_leading b l :
  clean b l = true -> clean false (drop_leading is_hyphen l) = true.
Proof.
  revert b. induction l as [|c r IH]; intros b; simpl; [reflexivity|].
  destruct (is_hyphen c) eqn:Eh; intros H.
  - apply andb_prop in H as [_ H]. eauto.
  - simpl. now rewrite Eh.
Qed.

Lemma clean_drop_trailing b l :
  clean b l = true -> clean b (drop_trailing is_hyphen l) = true.
Proof.
  revert b. induction l as [|c r IH]; intros b; [reflexivity|].
  intros H. pose proof H as H'. simpl in H'. simpl drop_trailing.
  destruct (drop_trailing is_hyphen r) as [|x r'] eqn:E.
  - destruct (is_hyphen c) eqn:Eh; [reflexivity|]. simpl. rewrite Eh.
    apply andb_prop in H' as [-> _]. reflexivity.
  - change (clean b (c :: x :: r')) with
      (if is_hyphen c then negb b && clean true (x :: r')
       else is_lower_alnum c && clean false (x :: r')).
    destruct (is_hyphen c); apply andb_prop in H' as [-> H'];
      now rewrite (IH _ H').
Qed.

Lemma slugify_chars s :
  slugify s = string_of_list_ascii (slug_of_chars (list_ascii_of_string s)).
Proof.
  unfold slugify, slug_of_chars, trim, toLowerCase.
  now rewrite !list_ascii_of_string_of_list_ascii.
Qed.

Lemma slug_chars_form l :
  Forall (fun c => is_upper c = false) l -> slug_form (slug_chars l).
Proof.
  intros H. unfold slug_chars, strip_hyphens, collapse_separators, slug_form.
  assert (C : clean false (collapse_runs false (remove_disallowed l)) = true).
  { apply clean_collapse. unfold remove_disallowed.
    apply List.Forall_forall. intros c Hc. apply List.filter_In in Hc as [Hc Hk].
    split; [exact Hk|]. now apply (proj1 (List.Forall_forall _ _) H). }
  split; [|split].
  - apply clean_drop_trailing. now apply clean_drop_leading with (b := false).
  - apply drop_trailing_keeps_head, drop_leading_idem.
  - apply drop_trailing_idem.
Qed.

Lemma slug_of_chars_form l : slug_form (slug_of_chars l).
Proof.
  apply slug_chars_form. unfold trim_chars.
  apply drop_trailing_Forall, drop_leading_Forall.
  apply List.Forall_forall. intros c Hc. apply List.in_map_iff in Hc as [x [<- _]].
  apply lower_char_not_upper.
Qed.

Lemma slug_form_fixed l : slug_form l -> slug_of_chars l = l.
Proof.
  intros (C & Hl & Ht).
  pose proof (clean_slug_chars _ _ C) as S.
  assert (L : map lower_char l = l).
  { clear -S. induction S as [|c r Hc _ IH]; simpl; [reflexivity|].
    now rewrite (slug_char_lower c Hc), IH. }
  assert (Sp : Forall (fun c => is_space c = false) l).
  { eapply List.Forall_impl; [|exact S]. apply slug_char_not_space. }
  assert (K : remove_disallowed l = l).
  { clear -S. unfold remove_disallowed.
    induction S as [|c r Hc _ IH]; simpl; [reflexivity|].
    now rewrite (slug_char_kept c Hc), IH. }
  unfold slug_of_chars, slug_chars, trim_chars, strip_hyphens, collapse_separators.
  rewrite L, (drop_leading_none _ _ Sp), (drop_trailing_none _ _ Sp), K.
  rewrite (collapse_clean _ _ C), Hl. exact Ht.
Qed.

(** ** Slugifier *)

(** C2. [slugify] is total, it returns a string for every string, and it is
    idempotent: [slugify (slugify s) = slugify s]. *)
Theorem slugify_idempotent (s : string) :
  (exists slug, slugify s = slug) /\ slugify (slugify s) = slugify s.
Proof.
  split; [now exists (slugify s)|].
  rewrite (slugify_chars (slugify s)), (slugify_chars s).
  rewrite list_ascii_of_string_of_list_ascii.
  now rewrite (slug_form_fixed _ (slug_of_chars_form _)).
Qed.

(** C3. The output of [slugify] contains only the characters [a-z], [0-9]
    and the hyphen (lower-case word characters and hyphens; the underscore
    never survives), it neither starts nor ends with a hyphen, and the empty
    string is an output: a title made of punctuation slugifies to it. *)
Theorem slugify_output_shape (s : string) :
  Forall (fun c => is_slug_char c = true) (list_ascii_of_string (slugify s)) /\
  Forall (fun c => is_word c = true /\ is_upper c = false \/ c = "-"%char)
         (list_ascii_of_string (slugify s)) /\
  starts_with_hyphen (slugify s) = false /\
  ends_with_hyphen (slugify s) = false /\
  slugify "?!...(#)" = "".
Proof.
  pose proof (slug_of_chars_form (list_ascii_of_string s)) as (C & Hl & Ht).
  pose proof (clean_slug_chars _ _ C) as S.
  rewrite slugify_chars. unfold ends_with_hyphen.
  rewrite list_ascii_of_string_of_list_ascii.
  split; [exact S|]. split; [|split; [|split]].
  - eapply List.Forall_impl; [|exact S]. intros c. each_char c.
  - destruct (slug_of_chars (list_ascii_of_string s)) as [|c r]; [reflexivity|].
    simpl. now apply drop_leading_fixed_head in Hl.
  - apply drop_trailing_fixed_last in Ht.
    destruct (last (slug_of_chars (list_ascii_of_string s))); [exact Ht|reflexivity].
  - reflexivity.
Qed.

(** ** Reads and guards *)

Lemma truthy_not_nullish v : truthy v = true -> is_nullish v = false.
Proof. destruct v; simpl; congruence. Qed.

Lemma get_read v k : is_nullish v = false -> get v k = Ok (read v k).
Proof.
  unfold read. destruct v; simpl; try discriminate; intros _; try reflexivity;
    repeat match goal with |- context [if ?b then _ else _] => destruct b end;
    reflexivity.
Qed.

Lemma get_truthy v k : truthy v = true -> get v k = Ok (read v k).
Proof. intros H. apply get_read, truthy_not_nullish, H. Qed.

Lemma get_opt_read v k : get_opt v k = Ok (read_opt v k).
Proof.
  unfold get_opt, read_opt. destruct (is_nullish v) eqn:E; [reflexivity|].
  now apply get_read.
Qed.

Lemma get_nullish v k : is_nullish v = true -> get v k = Throw TypeError.
Proof. destruct v; simpl; congruence. Qed.

Lemma or_else_truthy a b : truthy b = true -> truthy (or_else a b) = true.
Proof. unfold or_else. destruct (truthy a) eqn:E; congruence. Qed.

Lemma or_else_object a : truthy (or_else a (Obj [])) = true.
Proof. now apply or_else_truthy. Qed.

Lemma or_else_same a b : truthy a = true -> or_else a b = a.
Proof. unfold or_else. now intros ->. Qed.

Lemma or_else_string t : or_else (Str t) (Str "") = Str t.
Proof. now destruct t. Qed.

Lemma bind_ok {A B : Type} (a : A) (f : A -> result B) : (Ok a ≫= f) = f a.
Proof. reflexivity. Qed.

Lemma for_of_app {A S : Type} (body : S -> A -> result S) l1 l2 s :
  for_of (l1 ++ l2) s body = (s' ← for_of l1 s body; for_of l2 s' body).
Proof.
  revert s. induction l1 as [|x r IH]; intros s; simpl; [reflexivity|].
  destruct (body s x); simpl; [apply IH|reflexivity].
Qed.

Lemma append_empty (s : string) : s +:+ "" = s.
Proof.
  induction s as [|c r IH]; [reflexivity|].
  change (String c (r +:+ "") = String c r). now rewrite IH.
Qed.

Lemma append_assoc (s1 s2 s3 : string) : (s1 +:+ s2) +:+ s3 = s1 +:+ (s2 +:+ s3).
Proof.
  induction s1 as [|c r IH]; [reflexivity|].
  change (String c ((r +:+ s2) +:+ s3) = String c (r +:+ (s2 +:+ s3))).
  now rewrite IH.
Qed.

(** ** String conversion and [join] *)

Lemma printable_text v : printable v = true -> to_string v = Ok (text_of v).
Proof. unfold printable, text_of. now destruct (to_string v). Qed.

Lemma unprintable_throws v : printable v = false -> to_string v = Throw TypeError.
Proof. unfold printable. now destruct (to_string v) as [|[]]. Qed.

Lemma unprintable_not_nullish v : printable v = false -> is_nullish v = false.
Proof. now destruct v. Qed.

Lemma join_cons v parts :
  join "" (v :: parts)
  = (a ← elem_text to_string v; b ← join "" parts; Ok (a +:+ b)).
Proof.
  unfold join. destruct parts as [|w r]; [|reflexivity].
  cbn [join_with]. destruct (elem_text to_string v); cbn [mbind result_bind];
    [now rewrite append_empty|reflexivity].
Qed.

Lemma join_app a b :
  join "" (a ++ b) = (x ← join "" a; y ← join "" b; Ok (x +:+ y)).
Proof.
  induction a as [|v r IH].
  - cbn [app]. change (join "" []) with (Ok "" : result string).
    rewrite bind_ok. now destruct (join "" b).
  - change ((v :: r) ++ b) with (v :: (r ++ b)). rewrite !join_cons, IH.
    destruct (elem_text to_string v); cbn [mbind result_bind]; [|reflexivity].
    destruct (join "" r); cbn [mbind result_bind]; [|reflexivity].
    destruct (join "" b); cbn [mbind result_bind]; [|reflexivity].
    now rewrite append_assoc.
Qed.

Lemma join_strings (l : list string) : join "" (map Str l) = Ok (String.concat "" l).
Proof.
  induction l as [|x r IH]; [reflexivity|].
  cbn [map]. rewrite join_cons, IH. cbn [elem_text is_nullish to_string mbind result_bind].
  destruct r; [now rewrite append_empty|reflexivity].
Qed.

Lemma join_returns l : forallb printable l = true -> exists s, join "" l = Ok s.
Proof.
  induction l as [|v r IH]; cbn [forallb]; intros H; [now exists ""|].
  apply andb_prop in H as [Hv Hr]. destruct (IH Hr) as [s Hs].
  rewrite join_cons, Hs. unfold elem_text. rewrite (printable_text _ Hv).
  destruct (is_nullish v); eauto.
Qed.

Lemma join_throws l : forallb printable l = false -> join "" l = Throw TypeError.
Proof.
  induction l as [|v r IH]; cbn [forallb]; [discriminate|]. intros H.
  rewrite join_cons. unfold elem_text. destruct (printable v) eqn:Hv.
  - rewrite (IH H), (printable_text _ Hv). now destruct (is_nullish v).
  - now rewrite (unprintable_not_nullish _ Hv), (unprintable_throws _ Hv).
Qed.

(** Evaluate the reads of a payload that is known to be truthy. *)
Ltac run_reads Hd :=
  repeat first [ rewrite bind_ok; cbv beta
               | rewrite (get_truthy _ _ Hd)
               | rewrite get_opt_read ].

(** ** Rich text *)

Lemma render_span_styled parts text st :
  styled text st ->
  render_span parts text = Ok (parts ++ [Str (nested_markup st)]).
Proof.
  intros (Hn & Hp & Ha & Hb & Hi & Hs & Hc). unfold render_span, flag in *.
  rewrite !(get_read text) by exact Hn. rewrite !bind_ok, Hp.
  rewrite (or_else_same _ _ Ha), !(get_truthy _ _ Ha), or_else_string.
  cbn [mbind result_bind]. rewrite Hb, Hi, Hs, Hc. unfold nested_markup.
  destruct st as [t [] [] [] []]; reflexivity.
Qed.

Lemma render_spans_styled spans styles :
  Forall2 styled spans styles ->
  forall parts,
    for_of spans parts render_span = Ok (parts ++ map (fun st => Str (nested_markup st)) styles).
Proof.
  induction 1 as [|text st spans styles H _ IH]; intros parts; simpl.
  - now rewrite app_nil_r.
  - rewrite (render_span_styled _ _ _ H), bind_ok, IH, <- app_assoc. reflexivity.
Qed.

Lemma span_of_styled st : styled (span_of st) st.
Proof. destruct st as [t [] [] [] []]; repeat split. Qed.

(** C1, as amended.  For spans carrying any subset of the four flags, the
    renderer wraps the plain text in a fixed nesting order: bold innermost,
    then italic, then strikethrough, code outermost; the rendered spans are
    concatenated in order.  A span with all four flags renders with the
    backtick as the outermost delimiter and the double star as the innermost. *)
Theorem extractRichText_nesting (spans : list value) (styles : list style) :
  Forall2 styled spans styles ->
  extractRichText (Arr spans) = Ok (String.concat "" (map nested_markup styles)) /\
  forall t,
    extractRichText (Arr [span_of (Style t true true true true)])
    = Ok ("`" +:+ ("~~" +:+ ("*" +:+ ("**" +:+ t +:+ "**") +:+ "*") +:+ "~~") +:+ "`").
Proof.
  intros H. split.
  - unfold extractRichText. simpl iterate. rewrite bind_ok.
    rewrite (render_spans_styled _ _ H), bind_ok. simpl app.
    rewrite <- join_strings, map_map. reflexivity.
  - intros t. unfold extractRichText. simpl iterate. rewrite bind_ok. cbn [for_of].
    rewrite (render_span_styled [] _ _ (span_of_styled (Style t true true true true))).
    reflexivity.
Qed.

Lemma extractRichText_nesting_witness :
  extractRichText (Arr [span_of (Style "a" true false false true);
                        span_of (Style "b" false true true false)])
  = Ok "`**a**`~~*b*~~".
Proof.
  refine (proj1 (extractRichText_nesting
           [span_of (Style "a" true false false true);
            span_of (Style "b" false true true false)]
           [Style "a" true false false true; Style "b" false true true false] _)).
  repeat constructor.
Defined.

(** C1, as stated, fails: with all four flags set the specification's order
    would give [***~~`x`~~***], bold outermost; the renderer gives
    [`~~***x***~~`], code outermost. *)
Lemma extractRichText_bold_not_outermost :
  extractRichText (Arr [span_of (Style "x" true true true true)]) = Ok "`~~***x***~~`" /\
  spec_nested_markup (Style "x" true true true true) = "***~~`x`~~***" /\
  extractRichText (Arr [span_of (Style "x" true true true true)])
  <> Ok (spec_nested_markup (Style "x" true true true true)).
Proof. split; [reflexivity|split; [reflexivity|]]. vm_compute. discriminate. Qed.

Lemma render_span_nullish parts text :
  is_nullish text = true -> render_span parts text = Throw TypeError.
Proof. intros H. unfold render_span. now rewrite (get_nullish text "plain_text" H). Qed.

(** A span is pushed with a content that converts to a string exactly when
    its plain text does; a wrap of a plain text that does not convert
    throws. *)
Lemma render_span_cases text parts :
  match render_span parts text with
  | Ok parts' => exists content, parts' = parts ++ [content] /\
                                 (printable content = span_ok text)
  | Throw _ => span_ok text = false
  end.
Proof.
  unfold span_ok. destruct (is_nullish text) eqn:Hn.
  { now rewrite (render_span_nullish _ _ Hn). }
  unfold render_span. rewrite !(get_read text) by exact Hn. rewrite !bind_ok.
  rewrite !(get_truthy (or_else _ (Obj []))) by apply or_else_object.
  cbn [mbind result_bind negb andb]. unfold wrap, printable.
  destruct (to_string (or_else (read text "plain_text") (Str ""))) as [t|e] eqn:E;
    repeat match goal with
           | |- context [if truthy ?f then _ else _] => destruct (truthy f)
           end;
    cbn [mbind result_bind to_string]; rewrite ?E; cbn [mbind result_bind to_string];
    try reflexivity; eexists; (split; [reflexivity|]); cbn [to_string]; rewrite ?E;
    reflexivity.
Qed.

Lemma render_span_shift parts text :
  render_span parts text = (ps ← render_span [] text; Ok (parts ++ ps)).
Proof.
  unfold render_span.
  repeat match goal with
         | |- context [?x ≫= _] =>
             lazymatch x with
             | Ok _ => fail
             | _ => destruct x; [|reflexivity]
             end; cbn [mbind result_bind]
         end.
  reflexivity.
Qed.

Lemma for_of_shift {A B : Type} (body : list B -> A -> result (list B)) l :
  (forall s x, body s x = (ys ← body [] x; Ok (s ++ ys))) ->
  forall s, for_of l s body = (ys ← for_of l [] body; Ok (s ++ ys)).
Proof.
  intros Hb. induction l as [|x r IH]; intros s; simpl.
  - now rewrite app_nil_r.
  - rewrite (Hb s x). destruct (body [] x) as [ys|e]; simpl; [|reflexivity].
    rewrite (IH (s ++ ys)), (IH ys).
    destruct (for_of r [] body); simpl; [|reflexivity]. now rewrite app_assoc.
Qed.

Lemma render_spans_cases spans :
  forall parts,
    match for_of spans parts render_span with
    | Ok parts' => exists contents, parts' = parts ++ contents /\
                                    (forallb printable contents
                                     = forallb span_ok spans)
    | Throw _ => forallb span_ok spans = false
    end.
Proof.
  induction spans as [|text r IH]; intros parts; cbn [for_of forallb].
  - exists []. now rewrite app_nil_r.
  - pose proof (render_span_cases text parts) as C.
    destruct (render_span parts text) as [ps|]; cbn [mbind result_bind].
    + destruct C as (c & -> & Hc). specialize (IH (parts ++ [c])).
      destruct (for_of r (parts ++ [c]) render_span).
      * destruct IH as (cs & -> & Hcs). exists (c :: cs).
        rewrite <- app_assoc. split; [reflexivity|]. cbn [forallb]. now rewrite Hc, Hcs.
      * now rewrite IH, andb_false_r.
    + now rewrite C.
Qed.

Lemma extractRichText_array spans :
  match extractRichText (Arr spans) with
  | Ok _ => forallb span_ok spans = true
  | Throw e => forallb span_ok spans = false /\ e = TypeError
  end.
Proof.
  unfold extractRichText. cbn [iterate]. rewrite bind_ok.
  pose proof (render_spans_cases spans []) as C.
  destruct (for_of spans [] render_span) as [ps|[]]; cbn [mbind result_bind];
    [|now split].
  destruct C as (contents & -> & Hc). cbn [app]. rewrite <- Hc.
  destruct (forallb printable contents) eqn:P.
  - destruct (join_returns _ P) as [t ->]. reflexivity.
  - now rewrite (join_throws _ P).
Qed.

Lemma char_span_ok c : span_ok (Str (String c EmptyString)) = true.
Proof.
  unfold span_ok, read. cbn [get is_nullish negb andb].
  change (String.eqb "plain_text" "length") with false.
  change (String.eqb "plain_text" "bold") with false.
  cbn [char_values list_ascii_of_string map lookup_index].
  destruct (String.eqb "plain_text" (pretty 0)) eqn:E;
    [apply String.eqb_eq in E; discriminate E|].
  reflexivity.
Qed.

Lemma char_values_span_ok s : forallb span_ok (char_values s) = true.
Proof.
  unfold char_values. induction (list_ascii_of_string s) as [|c r IH]; [reflexivity|].
  cbn [map forallb]. now rewrite char_span_ok, IH.
Qed.

Lemma extractRichText_cases rt :
  match extractRichText (or_else rt (Arr [])) with
  | Ok _ => spans_ok rt = true
  | Throw e => spans_ok rt = false /\ e = TypeError
  end.
Proof.
  unfold spans_ok. destruct (or_else rt (Arr [])) as [| |[]| |s|l| |];
    try (split; reflexivity).
  - pose proof (extractRichText_array (char_values s)) as C.
    rewrite char_values_span_ok in C. unfold extractRichText in *. cbn [iterate] in *.
    rewrite bind_ok in *. destruct (_ ≫= _); [reflexivity|now destruct C].
  - apply extractRichText_array.
Qed.

Lemma extractRichText_ok rt :
  spans_ok rt = true -> exists text, extractRichText (or_else rt (Arr [])) = Ok text.
Proof.
  intros H. pose proof (extractRichText_cases rt) as C.
  destruct (extractRichText (or_else rt (Arr []))); [eauto|].
  destruct C as [C _]. rewrite H in C. discriminate C.
Qed.

Lemma extractRichText_throws rt :
  spans_ok rt = false -> extractRichText (or_else rt (Arr [])) = Throw TypeError.
Proof.
  intros H. pose proof (extractRichText_cases rt) as C.
  destruct (extractRichText (or_else rt (Arr []))).
  - rewrite H in C. discriminate C.
  - now destruct C as [_ ->].
Qed.

Lemma rich_text_of_ok blockData field :
  truthy blockData = true -> spans_ok (read blockData field) = true ->
  exists text, rich_text_of blockData field = Ok text.
Proof.
  intros Hd H. unfold rich_text_of. rewrite (get_truthy _ _ Hd), bind_ok.
  now apply extractRichText_ok.
Qed.

Lemma rich_text_of_throws blockData field :
  truthy blockData = true -> spans_ok (read blockData field) = false ->
  rich_text_of blockData field = Throw TypeError.
Proof.
  intros Hd H. unfold rich_text_of. rewrite (get_truthy _ _ Hd), bind_ok.
  now apply extractRichText_throws.
Qed.

(** ** Blocks *)

Lemma block_data_truthy block : truthy (block_data block) = true.
Proof. apply or_else_object. Qed.

Lemma recognised_printable blockType t :
  recognise blockType = Some t -> printable blockType = true.
Proof. now destruct blockType. Qed.

Lemma process_block_read content block :
  is_nullish block = false ->
  printable (read block "type") = true ->
  process_block content block = dispatch content (read block "type") (block_data block).
Proof.
  intros Hn Hp. unfold process_block, block_data.
  rewrite (get_read _ "type" Hn), bind_ok, (printable_text _ Hp), bind_ok.
  rewrite (get_read _ _ Hn), bind_ok. reflexivity.
Qed.

Lemma process_block_nullish content block :
  is_nullish block = true -> process_block content block = Throw TypeError.
Proof. intros Hn. unfold process_block. now rewrite (get_nullish block "type" Hn). Qed.

Lemma process_block_unprintable content block :
  is_nullish block = false ->
  printable (read block "type") = false ->
  process_block content block = Throw TypeError.
Proof.
  intros Hn Hp. unfold process_block.
  now rewrite (get_read _ "type" Hn), bind_ok, (unprintable_throws _ Hp).
Qed.

Lemma process_block_unrecognised content block :
  unrecognised block = true -> process_block content block = Ok content.
Proof.
  unfold unrecognised, block_tag. intros H. apply andb_prop in H as [H Ht].
  apply andb_prop in H as [Hn Hp]. apply negb_true_iff in Hn.
  rewrite (process_block_read _ _ Hn Hp). unfold dispatch.
  now destruct (recognise (read block "type")).
Qed.

Ltac returned :=
  split; [reflexivity|first [eexists; reflexivity|exists []; now rewrite app_nil_r]].

(** The [switch] returns exactly on the payloads of the shape the tag
    determines, and then it has pushed to [content]. *)
Lemma dispatch_cases content blockType blockData :
  truthy blockData = true ->
  match dispatch content blockType blockData with
  | Ok content' => payload_ok blockType blockData = true /\
                   exists fragments, content' = content ++ fragments
  | Throw e => payload_ok blockType blockData = false /\ e = TypeError
  end.
Proof.
  intros Hd. unfold dispatch, payload_ok.
  destruct (recognise blockType) as [t|]; [|returned].
  destruct t; cbn [text_field extras_ok];
    try match goal with
        | |- context [rich_text_of blockData ?f] =>
            destruct (spans_ok (read blockData f)) eqn:S;
            [destruct (rich_text_of_ok _ _ Hd S) as [text Ht]; rewrite Ht
            |rewrite (rich_text_of_throws _ _ Hd S); now split]
        end;
    run_reads Hd; cbn [andb]; try returned.
  - unfold printable.
    destruct (to_string (or_else (read blockData "language") (Str ""))) as [|[]];
      cbn [mbind result_bind]; [returned|now split].
  - unfold image_url.
    destruct (truthy (read_opt (read blockData "file") "url")); run_reads Hd;
      match goal with
      | |- context [truthy (or_else ?u (Str ""))] =>
          destruct (truthy (or_else u (Str ""))); cbn [negb orb]; [|returned];
          unfold printable; destruct (to_string (or_else u (Str ""))) as [|[]];
          cbn [mbind result_bind]; [returned|now split]
      end.
  - unfold printable.
    destruct (to_string (or_else (read_opt (read blockData "icon") "emoji") (Str "")))
      as [|[]]; cbn [mbind result_bind]; [returned|now split].
Qed.

Lemma process_block_cases content block :
  match process_block content block with
  | Ok content' => well_shaped block = true /\
                   exists fragments, content' = content ++ fragments
  | Throw e => well_shaped block = false /\ e = TypeError
  end.
Proof.
  unfold well_shaped. destruct (is_nullish block) eqn:Hn.
  { now rewrite (process_block_nullish _ _ Hn). }
  destruct (printable (read block "type")) eqn:Hp.
  - rewrite (process_block_read _ _ Hn Hp). cbn [negb andb].
    apply dispatch_cases, block_data_truthy.
  - now rewrite (process_block_unprintable _ _ Hn Hp).
Qed.

Lemma process_block_ok content block :
  well_shaped block = true ->
  exists fragments, process_block content block = Ok (content ++ fragments).
Proof.
  intros H. pose proof (process_block_cases content block) as C.
  destruct (process_block content block).
  - destruct C as (_ & fs & ->). eauto.
  - destruct C as [C _]. rewrite H in C. discriminate C.
Qed.

Lemma process_block_throws content block :
  well_shaped block = false -> process_block content block = Throw TypeError.
Proof.
  intros H. pose proof (process_block_cases content block) as C.
  destruct (process_block content block).
  - destruct C as [C _]. rewrite H in C. discriminate C.
  - now destruct C as [_ ->].
Qed.

Lemma process_blocks_ok blocks :
  forallb well_shaped blocks = true ->
  forall content, exists fragments,
    for_of blocks content process_block = Ok (content ++ fragments).
Proof.
  induction blocks as [|b r IH]; simpl; intros H content.
  - exists []. now rewrite app_nil_r.
  - apply andb_prop in H as [Hb Hr].
    destruct (process_block_ok content b Hb) as [fs Hfs].
    destruct (IH Hr (content ++ fs)) as [gs Hgs].
    exists (fs ++ gs). rewrite Hfs, bind_ok, Hgs, <- app_assoc. reflexivity.
Qed.

Lemma process_blocks_throw blocks :
  forallb well_shaped blocks = false ->
  forall content, for_of blocks content process_block = Throw TypeError.
Proof.
  induction blocks as [|b r IH]; cbn [forallb for_of]; [discriminate|].
  intros H content. destruct (well_shaped b) eqn:Hb.
  - destruct (process_block_ok content b Hb) as [fs Hfs]. rewrite Hfs, bind_ok.
    now apply IH.
  - now rewrite (process_block_throws _ _ Hb).
Qed.

Lemma for_of_skip_unrecognised blocks content :
  for_of blocks content process_block
  = for_of (List.filter (fun b => negb (unrecognised b)) blocks) content process_block.
Proof.
  revert content. induction blocks as [|b r IH]; intros content; simpl; [reflexivity|].
  destruct (unrecognised b) eqn:E; simpl.
  - rewrite (process_block_unrecognised _ _ E), bind_ok. apply IH.
  - destruct (process_block content b); simpl; [apply IH|reflexivity].
Qed.

(** C5, as amended.  A block object whose type tag converts to a property
    key and is none of the recognised ones (every string outside the
    enumeration, and a missing tag, among them) pushes nothing and raises no
    error, so it contributes the empty string; a block object whose type tag
    does not convert to a property key raises a [TypeError]; rendering a
    block sequence gives exactly what rendering the sequence without the
    skipped blocks gives, a failure included; and rendering returns a body
    for every sequence of block objects whose type tags convert to property
    keys and whose recognised blocks carry the payload their tag determines,
    whatever the skipped blocks carry. *)
Theorem unrecognised_blocks_skipped (blocks : list value) :
  (forall block content,
     unrecognised block = true -> process_block content block = Ok content) /\
  (forall block, unrecognised block = true -> processBlocks [block] = Ok "") /\
  (forall block,
     is_nullish block = false ->
     block_tag block = None ->
     (exists s, read block "type" = Str s) \/ read block "type" = Undefined ->
     unrecognised block = true) /\
  (forall block content,
     is_nullish block = false ->
     printable (read block "type") = false ->
     process_block content block = Throw TypeError) /\
  processBlocks blocks
  = processBlocks (List.filter (fun b => negb (unrecognised b)) blocks) /\
  (forallb well_shaped blocks = true ->
   exists body,
     processBlocks blocks = Ok body /\
     processBlocks (List.filter (fun b => negb (unrecognised b)) blocks) = Ok body).
Proof.
  assert (E : processBlocks blocks
              = processBlocks (List.filter (fun b => negb (unrecognised b)) blocks)).
  { unfold processBlocks. now rewrite for_of_skip_unrecognised. }
  split; [|split; [|split; [|split; [|split]]]].
  - intros block content. apply process_block_unrecognised.
  - intros block H. unfold processBlocks. simpl for_of.
    now rewrite (process_block_unrecognised _ _ H).
  - intros block Hn Ht Hs. unfold unrecognised. rewrite Hn, Ht.
    now destruct Hs as [[s ->]| ->].
  - intros block content. apply process_block_unprintable.
  - exact E.
  - intros H. destruct (process_blocks_ok _ H []) as [fs Hfs].
    assert (B : processBlocks blocks = Ok (String.concat "" fs)).
    { unfold processBlocks. now rewrite Hfs. }
    exists (String.concat "" fs). rewrite <- E. now split.
Qed.

Lemma unrecognised_blocks_skipped_witness :
  processBlocks [block_of "table_of_contents" [("color", Str "gray")]] = Ok "" /\
  exists body,
    processBlocks
      [ block_of "paragraph" [("rich_text", Arr [plain_span "Hello"])];
        block_of "table_of_contents" [("color", Str "gray")];
        Obj [("id", Str "b")];
        block_of "divider" [] ] = Ok body /\
    processBlocks
      [ block_of "paragraph" [("rich_text", Arr [plain_span "Hello"])];
        block_of "divider" [] ] = Ok body.
Proof.
  destruct (unrecognised_blocks_skipped
              [ block_of "paragraph" [("rich_text", Arr [plain_span "Hello"])];
                block_of "table_of_contents" [("color", Str "gray")];
                Obj [("id", Str "b")];
                block_of "divider" [] ]) as (_ & One & _ & _ & _ & All).
  split; [apply One; reflexivity|apply All; reflexivity].
Defined.

(** C5, as stated, fails: a block whose type tag is an object with a field
    named [toString] has a tag outside the enumeration, and processing it
    raises a [TypeError], which fails the whole rendering. *)
Lemma process_block_throws_on_object_tag :
  is_nullish (Obj [ ("type", Obj [ ("toString", Num "0") ]) ]) = false /\
  block_tag (Obj [ ("type", Obj [ ("toString", Num "0") ]) ]) = None /\
  process_block [] (Obj [ ("type", Obj [ ("toString", Num "0") ]) ]) = Throw TypeError /\
  processBlocks [ Obj [ ("type", Obj [ ("toString", Num "0") ]) ] ] = Throw TypeError /\
  ~ (forall block content,
       is_nullish block = false -> block_tag block = None ->
       process_block content block = Ok content).
Proof.
  repeat (split; [reflexivity|]). intros H.
  specialize (H (Obj [ ("type", Obj [ ("toString", Num "0") ]) ]) [] eq_refl eq_refl).
  discriminate H.
Qed.

Lemma process_block_numbered content block text :
  is_numbered_item block = true ->
  rich_text_of (block_data block) "rich_text" = Ok text ->
  process_block content block = Ok (content ++ ["1. " +:+ text +:+ nl]).
Proof.
  unfold is_numbered_item, block_tag. intros H Ht. apply andb_prop in H as [Hn H].
  apply negb_true_iff in Hn.
  destruct (recognise (read block "type")) as [t|] eqn:R; [|discriminate].
  rewrite (process_block_read _ _ Hn (recognised_printable _ _ R)). unfold dispatch.
  rewrite R. destruct t; try discriminate. now rewrite Ht.
Qed.

Lemma numbered_items_loop blocks :
  forallb is_numbered_item blocks = true ->
  forallb well_shaped blocks = true ->
  exists texts,
    Forall2 (fun block text => rich_text_of (block_data block) "rich_text" = Ok text)
            blocks texts /\
    forall content,
      for_of blocks content process_block
      = Ok (content ++ map (fun text => "1. " +:+ text +:+ nl) texts).
Proof.
  induction blocks as [|b r IH]; simpl; intros Hi Hw.
  - exists []. split; [constructor|]. intros content. now rewrite app_nil_r.
  - apply andb_prop in Hi as [Hb Hr]. apply andb_prop in Hw as [Wb Wr].
    destruct (IH Hr Wr) as (texts & F & L).
    assert (T : exists text, rich_text_of (block_data b) "rich_text" = Ok text).
    { apply rich_text_of_ok; [apply block_data_truthy|].
      unfold well_shaped, payload_ok, is_numbered_item, block_tag in *.
      destruct (is_nullish b); [discriminate|].
      destruct (printable (read b "type")); [|discriminate]. cbn [negb andb] in *.
      destruct (recognise (read b "type")) as [[]|]; try discriminate.
      cbn [text_field extras_ok] in Wb. now rewrite andb_true_r in Wb. }
    destruct T as [text T]. exists (text :: texts). split; [now constructor|].
    intros content. rewrite (process_block_numbered _ _ _ Hb T), bind_ok, L.
    rewrite <- app_assoc. reflexivity.
Qed.

(** C4.  In a sequence of numbered-list-item blocks, of any length, every
    item renders as [1. ] followed by its text and a newline: the body is
    the concatenation of these fragments in order, and no item gets another
    ordinal whatever its position. *)
Theorem numbered_items_all_render_one (blocks : list value) :
  forallb is_numbered_item blocks = true ->
  forallb well_shaped blocks = true ->
  exists texts,
    length texts = length blocks /\
    Forall2 (fun block text => rich_text_of (block_data block) "rich_text" = Ok text)
            blocks texts /\
    processBlocks blocks
    = Ok (String.concat "" (map (fun text => "1. " +:+ text +:+ nl) texts)).
Proof.
  intros Hi Hw. destruct (numbered_items_loop blocks Hi Hw) as (texts & F & L).
  exists texts. split; [symmetry; eapply Forall2_length, F|]. split; [exact F|].
  unfold processBlocks. now rewrite L.
Qed.

Lemma numbered_items_all_render_one_witness :
  exists texts,
    length texts = 3 /\
    Forall2 (fun block text => rich_text_of (block_data block) "rich_text" = Ok text)
      [ block_of "numbered_list_item" [("rich_text", Arr [plain_span "one"])];
        block_of "numbered_list_item" [("rich_text", Arr [plain_span "two"])];
        block_of "numbered_list_item" [("rich_text", Arr [plain_span "three"])] ]
      texts /\
    processBlocks
      [ block_of "numbered_list_item" [("rich_text", Arr [plain_span "one"])];
        block_of "numbered_list_item" [("rich_text", Arr [plain_span "two"])];
        block_of "numbered_list_item" [("rich_text", Arr [plain_span "three"])] ]
    = Ok (String.concat "" (map (fun text => "1. " +:+ text +:+ nl) texts)).
Proof.
  apply (numbered_items_all_render_one
           [ block_of "numbered_list_item" [("rich_text", Arr [plain_span "one"])];
             block_of "numbered_list_item" [("rich_text", Arr [plain_span "two"])];
             block_of "numbered_list_item" [("rich_text", Arr [plain_span "three"])] ]);
    reflexivity.
Defined.

Lemma image_markup_not_empty caption url : image_markup caption url <> "".
Proof. discriminate. Qed.

(** C8.  An image block whose caption renders to [caption], and whose URL,
    if it has one, converts to a string, contributes [![caption](url)] and a
    blank line exactly when a URL is resolvable: the URL of the uploaded file
    if there is one, otherwise the external URL if there is one; with neither
    it contributes the empty string. *)
Theorem image_block_markup (block : value) :
  is_image block = true ->
  well_shaped block = true ->
  let file_url := read_opt (read (block_data block) "file") "url" in
  let external_url := read_opt (read (block_data block) "external") "url" in
  exists caption,
    rich_text_of (block_data block) "caption" = Ok caption /\
    processBlocks [block]
    = Ok (if truthy file_url then image_markup caption file_url
          else if truthy external_url then image_markup caption external_url
          else "") /\
    (processBlocks [block] = Ok "" <->
     truthy file_url = false /\ truthy external_url = false).
Proof.
  intros Hi Hw file_url external_url.
  pose proof (block_data_truthy block) as Hd.
  unfold is_image, block_tag in Hi. apply andb_prop in Hi as [Hn Hi].
  apply negb_true_iff in Hn.
  destruct (recognise (read block "type")) as [t|] eqn:R; [|discriminate Hi].
  destruct t; try discriminate Hi.
  pose proof (recognised_printable _ _ R) as Hp.
  unfold well_shaped, payload_ok in Hw. rewrite Hn, Hp, R in Hw.
  cbn [negb andb text_field extras_ok] in Hw. apply andb_prop in Hw as [Hs Hu].
  destruct (rich_text_of_ok _ _ Hd Hs) as [caption Hc]. exists caption.
  split; [exact Hc|].
  assert (E : processBlocks [block]
              = Ok (if truthy file_url then image_markup caption file_url
                    else if truthy external_url then image_markup caption external_url
                    else "")).
  { unfold processBlocks. cbn [for_of].
    rewrite (process_block_read _ _ Hn Hp). unfold dispatch. rewrite R, Hc.
    run_reads Hd. unfold image_url in Hu. fold file_url in Hu |- *.
    fold external_url in Hu. unfold image_markup.
    destruct (truthy file_url) eqn:Ef; run_reads Hd.
    - rewrite (or_else_same _ _ Ef) in Hu |- *. rewrite Ef in Hu |- *.
      cbn [negb orb] in Hu. now rewrite (printable_text _ Hu).
    - fold external_url. destruct (truthy external_url) eqn:Ee.
      + rewrite (or_else_same _ _ Ee) in Hu |- *. rewrite Ee in Hu |- *.
        cbn [negb orb] in Hu. now rewrite (printable_text _ Hu).
      + unfold or_else. rewrite Ee. reflexivity. }
  split; [exact E|]. rewrite E.
  destruct (truthy file_url), (truthy external_url); split;
    try (intros [= A]; now apply image_markup_not_empty in A);
    try (intros [? ?]; discriminate); auto.
Qed.

Lemma image_block_markup_witness :
  exists caption,
    rich_text_of (block_data (block_of "image"
      [ ("caption", Arr [plain_span "A cat"]);
        ("external", Obj [("url", Str "https://example.org/cat.png")]) ]))
      "caption" = Ok caption /\
    processBlocks [ block_of "image"
      [ ("caption", Arr [plain_span "A cat"]);
        ("external", Obj [("url", Str "https://example.org/cat.png")]) ] ]
    = Ok (image_markup caption (Str "https://example.org/cat.png")).
Proof.
  destruct (image_block_markup (block_of "image"
      [ ("caption", Arr [plain_span "A cat"]);
        ("external", Obj [("url", Str "https://example.org/cat.png")]) ])
      eq_refl eq_refl) as (caption & Hc & E & _).
  exists caption. split; [exact Hc|exact E].
Defined.

(** ** Title *)

Lemma map_elems_read (k : string) l :
  forallb (fun v => negb (is_nullish v)) l = true ->
  map_elems (fun v => x ← get v k; Ok (or_else x (Str ""))) l
  = Ok (map (fun v => or_else (read v k) (Str "")) l).
Proof.
  induction l as [|v r IH]; simpl; [reflexivity|]. intros H.
  apply andb_prop in H as [Hv Hr]. apply negb_true_iff in Hv.
  now rewrite (get_read _ _ Hv), bind_ok, bind_ok, (IH Hr).
Qed.

Lemma map_elems_nullish (k : string) l :
  forallb (fun v => negb (is_nullish v)) l = false ->
  map_elems (fun v => x ← get v k; Ok (or_else x (Str ""))) l = Throw TypeError.
Proof.
  induction l as [|v r IH]; simpl; [discriminate|]. intros H.
  destruct (is_nullish v) eqn:Hv.
  - now rewrite (get_nullish _ _ Hv).
  - rewrite (get_read _ _ Hv), bind_ok, bind_ok, (IH H). reflexivity.
Qed.

Lemma span_ok_split l :
  forallb span_ok l
  = forallb (fun part => negb (is_nullish part)) l
    && forallb printable (map (fun part => or_else (read part "plain_text") (Str "")) l).
Proof.
  induction l as [|v r IH]; [reflexivity|]. cbn [forallb map]. rewrite IH.
  unfold span_ok.
  destruct (negb (is_nullish v)), (printable (or_else (read v "plain_text") (Str ""))),
    (forallb (fun part => negb (is_nullish part)) r); reflexivity.
Qed.

Lemma extractTitle_read page :
  is_nullish page = false ->
  extractTitle page
  = if truthy (title_value page)
    then titleParts ← call_map (title_value page) (fun part =>
           plain_text ← get part "plain_text"; Ok (or_else plain_text (Str "")));
         join "" titleParts
    else Ok "Untitled".
Proof.
  intros Hn. unfold extractTitle.
  rewrite (get_read _ _ Hn), bind_ok. cbv beta. fold (properties_of page).
  assert (Hp : truthy (properties_of page) = true) by apply or_else_object.
  rewrite !(get_truthy _ _ Hp), bind_ok. cbv beta.
  unfold title_value, title_prop, or_else.
  destruct (truthy (read (properties_of page) "Name")) eqn:En.
  - rewrite bind_ok. cbv beta. rewrite En, (get_truthy _ _ En), bind_ok. reflexivity.
  - rewrite bind_ok. cbv beta.
    destruct (truthy (read (properties_of page) "Title")) eqn:Et.
    + rewrite (get_truthy _ _ Et), bind_ok. reflexivity.
    + rewrite bind_ok. cbv beta. rewrite Et. reflexivity.
Qed.

Lemma extractTitle_nullish page :
  is_nullish page = true -> extractTitle page = Throw TypeError.
Proof. intros H. unfold extractTitle. now rewrite (get_nullish _ _ H). Qed.

Lemma extractTitle_returns page :
  (exists title, extractTitle page = Ok title) <->
  is_nullish page = false /\ title_ok page = true.
Proof.
  destruct (is_nullish page) eqn:Hn.
  - rewrite (extractTitle_nullish _ Hn). split; [intros [? [=]]|intros [[=] _]].
  - rewrite (extractTitle_read _ Hn). unfold title_ok.
    destruct (truthy (title_value page)); [|split; eauto].
    destruct (title_value page) as [| | | | |l| |]; cbn [call_map];
      try match goal with
          | |- context [map_elems] => fail 1
          | _ => split; [intros [? [=]]|intros [_ [=]]]
          end.
    rewrite span_ok_split.
    destruct (forallb (fun part => negb (is_nullish part)) l) eqn:E.
    + rewrite (map_elems_read _ _ E), bind_ok. cbn [andb].
      destruct (forallb printable _) eqn:P.
      * destruct (join_returns _ P) as [t ->]. split; eauto.
      * rewrite (join_throws _ P). split; [intros [? [=]]|intros [_ [=]]].
    + rewrite (map_elems_nullish _ _ E). split; [intros [? [=]]|intros [_ [=]]].
Qed.

(** C6, as amended.  For every page object lacking both a property named
    [Name] and a property named [Title], a page without a properties bag
    included, title extraction returns [Untitled]; and title extraction
    returns a title exactly for the page objects whose selected property
    carries no title value or one that is a list of parts none of which is
    null and each of which has a plain text that converts to a string. *)
Theorem extractTitle_untitled (page : value) :
  is_nullish page = false ->
  (lacks page "Name" -> lacks page "Title" -> extractTitle page = Ok "Untitled") /\
  (read page "properties" = Undefined -> extractTitle page = Ok "Untitled") /\
  (title_ok page = true <-> exists title, extractTitle page = Ok title).
Proof.
  intros Hn.
  assert (L : lacks page "Name" -> lacks page "Title" ->
              extractTitle page = Ok "Untitled").
  { unfold lacks. intros HN HT. rewrite (extractTitle_read _ Hn).
    unfold title_value, title_prop. now rewrite HN, HT. }
  split; [exact L|]. split.
  - intros Hp. apply L; unfold lacks, properties_of; now rewrite Hp.
  - rewrite extractTitle_returns. tauto.
Qed.

Lemma extractTitle_untitled_witness :
  extractTitle (Obj [ ("id", Str "p1");
                      ("properties", Obj [ ("Tags", select_prop "news") ]) ])
  = Ok "Untitled" /\
  extractTitle (Obj [ ("id", Str "p2") ]) = Ok "Untitled".
Proof.
  split.
  - exact (proj1 (extractTitle_untitled
                    (Obj [ ("id", Str "p1");
                           ("properties", Obj [ ("Tags", select_prop "news") ]) ])
                    eq_refl) eq_refl eq_refl).
  - exact (proj1 (proj2 (extractTitle_untitled (Obj [ ("id", Str "p2") ]) eq_refl))
                 eq_refl).
Defined.

(** C6, as stated, fails: title extraction throws on a page whose [Name]
    property carries a title that is not a list. *)
Lemma extractTitle_throws_on_malformed_title :
  extractTitle
    (Obj [ ("id", Str "p1");
           ("properties",
             Obj [ ("Name", Obj [ ("type", Str "title"); ("title", Str "Home") ]) ]) ])
  = Throw TypeError /\
  ~ (forall page, exists title, extractTitle page = Ok title).
Proof.
  split; [reflexivity|]. intros H.
  destruct (H (Obj [ ("id", Str "p1");
                     ("properties",
                       Obj [ ("Name", Obj [ ("type", Str "title");
                                            ("title", Str "Home") ]) ]) ]))
    as [title E].
  discriminate E.
Qed.

(** C9.  When the property named [Name] is present without a title value,
    title extraction returns [Untitled] whatever the property named [Title]
    holds; more generally, a present [Name] alone decides the result, so the
    fallback to [Title] is taken only when [Name] is absent.  A page with a
    malformed [Name] and a well-formed [Title] is titled [Untitled], while
    the same page without [Name] takes the text of [Title]. *)
Theorem name_without_title_blocks_fallback (page : value) :
  is_nullish page = false ->
  truthy (read (properties_of page) "Name") = true ->
  (truthy (read (read (properties_of page) "Name") "title") = false ->
   extractTitle page = Ok "Untitled") /\
  (forall page',
     is_nullish page' = false ->
     read (properties_of page') "Name" = read (properties_of page) "Name" ->
     extractTitle page' = extractTitle page) /\
  extractTitle
    (Obj [ ("properties",
             Obj [ ("Name", Obj [ ("type", Str "rich_text"); ("rich_text", Arr []) ]);
                   ("Title", title_prop_of ["Release notes"]) ]) ])
  = Ok "Untitled" /\
  extractTitle
    (Obj [ ("properties", Obj [ ("Title", title_prop_of ["Release notes"]) ]) ])
  = Ok "Release notes".
Proof.
  intros Hn HN.
  assert (V : forall p, is_nullish p = false ->
                read (properties_of p) "Name" = read (properties_of page) "Name" ->
                title_value p = read (read (properties_of page) "Name") "title").
  { intros p _ E. unfold title_value, title_prop. rewrite E.
    now rewrite (or_else_same _ _ HN), HN. }
  split; [|split; [|split; reflexivity]].
  - intros HT. rewrite (extractTitle_read _ Hn), (V page Hn eq_refl), HT. reflexivity.
  - intros page' Hn' E.
    now rewrite (extractTitle_read _ Hn), (extractTitle_read _ Hn'),
      (V page Hn eq_refl), (V page' Hn' E).
Qed.

Lemma name_without_title_blocks_fallback_witness :
  extractTitle
    (Obj [ ("properties",
             Obj [ ("Name", select_prop "draft");
                   ("Title", title_prop_of ["My"; " Page"]) ]) ])
  = Ok "Untitled".
Proof.
  exact (proj1 (name_without_title_blocks_fallback
                  (Obj [ ("properties",
                           Obj [ ("Name", select_prop "draft");
                                 ("Title", title_prop_of ["My"; " Page"]) ]) ])
                  eq_refl eq_refl) eq_refl).
Defined.

(** ** Metadata *)

Lemma toLowerCase_no_upper s :
  Forall (fun c => is_upper c = false) (list_ascii_of_string (toLowerCase s)).
Proof.
  unfold toLowerCase. rewrite list_ascii_of_string_of_list_ascii.
  apply List.Forall_forall. intros c Hc. apply List.in_map_iff in Hc as [x [<- _]].
  apply lower_char_not_upper.
Qed.

Lemma toLowerCase_not_fixed key :
  toLowerCase key <> "createdTime" /\ toLowerCase key <> "lastEditedTime".
Proof.
  pose proof (toLowerCase_no_upper key) as F.
  split; intros E; rewrite E in F;
    apply (proj1 (List.Forall_forall _ _)) with (x := "T"%char) in F;
    solve [discriminate F | simpl; tauto].
Qed.

Lemma extract_property_write metadata key prop :
  prop_ok prop = true ->
  extract_property metadata (key, prop)
  = Ok (match extracted prop with
        | Some v => set_field (toLowerCase key) v metadata
        | None => metadata
        end).
Proof.
  unfold prop_ok, extract_property, extracted. intros H.
  apply andb_prop in H as [Hn H]. apply negb_true_iff in Hn.
  rewrite (get_read _ _ Hn), bind_ok. cbv beta.
  destruct (read prop "type") as [| | | |t| | |]; try reflexivity.
  unfold typed_payload. rewrite !(get_read prop) by exact Hn.
  destruct (String.eqb t "select") eqn:Es.
  { apply String.eqb_eq in Es. subst t. rewrite bind_ok. cbv beta.
    destruct (truthy (read prop "select")) eqn:Ts; [|reflexivity].
    now rewrite (get_truthy _ _ Ts), bind_ok. }
  rewrite bind_ok. cbv beta. cbn [truthy].
  destruct (String.eqb t "multi_select") eqn:Em.
  { apply String.eqb_eq in Em. subst t. rewrite bind_ok. cbv beta. simpl in H.
    destruct (read prop "multi_select") as [| |[]|digits|s|l| |] eqn:Tm;
      try reflexivity; try discriminate H.
    - destruct (truthy (Num digits)); [discriminate H|reflexivity].
    - destruct (truthy (Str s)); [discriminate H|reflexivity].
    - cbn [truthy call_map]. rewrite (map_elems_read "name" l H), bind_ok.
      reflexivity. }
  rewrite bind_ok. cbv beta. cbn [truthy].
  destruct (String.eqb t "date") eqn:Ed; [|reflexivity].
  rewrite bind_ok. cbv beta.
  destruct (truthy (read prop "date")) eqn:Td; [|reflexivity].
  now rewrite (get_truthy _ _ Td), bind_ok.
Qed.

Lemma extract_property_throws metadata key prop :
  prop_ok prop = false -> extract_property metadata (key, prop) = Throw TypeError.
Proof.
  unfold prop_ok, extract_property. destruct (is_nullish prop) eqn:Hn.
  - intros _. now rewrite (get_nullish prop "type" Hn).
  - cbn [negb andb]. rewrite (get_read _ _ Hn), bind_ok. cbv beta.
    destruct (read prop "type") as [| | | |t| | |]; try discriminate.
    destruct (String.eqb t "multi_select") eqn:Em; [|discriminate].
    apply String.eqb_eq in Em. subst t. cbn [andb].
    destruct (truthy (read prop "multi_select")) eqn:Tm; [|discriminate].
    intros H. unfold typed_payload.
    change (String.eqb "multi_select" "select") with false.
    change (String.eqb "multi_select" "multi_select") with true.
    cbv iota. rewrite bind_ok. cbv beta. cbn [truthy]. cbv iota.
    rewrite (get_read prop "multi_select" Hn), bind_ok. cbv beta. rewrite Tm.
    destruct (read prop "multi_select") as [| | | | |l| |]; try reflexivity.
    cbn [call_map]. now rewrite (map_elems_nullish "name" l H).
Qed.

(** An assignment changes the own fields at its key or not at all: the
    assignments that reach the accessor of [__proto__] change the prototype
    only. *)
Lemma set_field_cases k v metadata :
  own (set_field k v metadata) = own metadata \/
  own (set_field k v metadata) = <[k := v]> (own metadata).
Proof.
  unfold set_field. destruct (_ || _); [now right|].
  destruct (is_object v); [now left|]. destruct v; now left.
Qed.

Lemma set_field_lookup k v metadata k' :
  k' <> "__proto__" ->
  own (set_field k v metadata) !! k'
  = if String.eqb k k' then Some v else own metadata !! k'.
Proof.
  intros Hk. unfold set_field. destruct (String.eqb k k') eqn:E.
  - apply String.eqb_eq in E. subst k'. apply String.eqb_neq in Hk. rewrite Hk.
    cbn [negb orb own]. apply lookup_insert_eq.
  - apply String.eqb_neq in E.
    destruct (set_field_cases k v metadata) as [C|C]; unfold set_field in C;
      rewrite C; [reflexivity|now apply lookup_insert_ne].
Qed.

Lemma lookup_write metadata key prop k :
  k <> "__proto__" ->
  own (match extracted prop with
       | Some v => set_field (toLowerCase key) v metadata
       | None => metadata
       end) !! k
  = match writes k (key, prop) with
    | Some v => Some v
    | None => own metadata !! k
    end.
Proof.
  intros Hk. unfold writes. cbn [fst snd].
  destruct (extracted prop) as [v|]; [|now destruct (String.eqb _ k)].
  rewrite (set_field_lookup _ _ _ _ Hk). now destruct (String.eqb _ k).
Qed.

Lemma metadata_loop es :
  forallb (fun entry => prop_ok (snd entry)) es = true ->
  forall metadata,
  exists metadata',
    for_of es metadata extract_property = Ok metadata' /\
    forall k,
      k <> "__proto__" ->
      own metadata' !! k = match last_write k es with
                           | Some v => Some v
                           | None => own metadata !! k
                           end.
Proof.
  induction es as [|[key prop] r IH]; cbn [for_of forallb snd last_write]; intros H m.
  - exists m. now split.
  - apply andb_prop in H as [Hp Hr]. rewrite (extract_property_write _ _ _ Hp), bind_ok.
    destruct (IH Hr (match extracted prop with
                     | Some v => set_field (toLowerCase key) v m
                     | None => m
                     end)) as (m' & E & L).
    exists m'. split; [exact E|]. intros k Hk. rewrite (L k Hk).
    destruct (last_write k r); [reflexivity|]. now apply lookup_write.
Qed.

Lemma metadata_loop_throws es :
  forallb (fun entry => prop_ok (snd entry)) es = false ->
  forall metadata, for_of es metadata extract_property = Throw TypeError.
Proof.
  induction es as [|[key prop] r IH]; cbn [forallb for_of snd]; [discriminate|].
  intros H m. destruct (prop_ok prop) eqn:Hp.
  - rewrite (extract_property_write _ _ _ Hp), bind_ok. now apply IH.
  - now rewrite (extract_property_throws _ _ _ Hp).
Qed.

(** The object [metadata] starts as, for a page that is an object. *)
Lemma extractMetadata_read page :
  is_nullish page = false ->
  extractMetadata page
  = (metadata ← for_of (entries (properties_of page))
                   {| own := page_fields page; proto := ObjectPrototype |}
                   extract_property;
     Ok (own metadata)).
Proof.
  intros Hn. unfold extractMetadata. rewrite !(get_read page _ Hn).
  repeat (rewrite bind_ok; cbv beta). reflexivity.
Qed.

Lemma extractMetadata_nullish page :
  is_nullish page = true -> extractMetadata page = Throw TypeError.
Proof.
  intros H. unfold extractMetadata. now rewrite (get_nullish page "properties" H).
Qed.

Lemma extractMetadata_returned page (m : gmap string value) :
  extractMetadata page = Ok m ->
  is_nullish page = false /\
  exists metadata,
    for_of (entries (properties_of page))
      {| own := page_fields page; proto := ObjectPrototype |} extract_property
    = Ok metadata /\
    m = own metadata.
Proof.
  intros E. destruct (is_nullish page) eqn:Hn.
  { rewrite (extractMetadata_nullish _ Hn) in E. discriminate E. }
  split; [reflexivity|]. rewrite (extractMetadata_read _ Hn) in E.
  destruct (for_of _ _ _) as [metadata|]; [|discriminate E].
  injection E as <-. now exists metadata.
Qed.

Lemma extractMetadata_cases page :
  match extractMetadata page with
  | Ok _ => is_nullish page = false /\ props_ok page = true
  | Throw e => (is_nullish page = true \/ props_ok page = false) /\ e = TypeError
  end.
Proof.
  destruct (is_nullish page) eqn:Hn.
  { rewrite (extractMetadata_nullish _ Hn). auto. }
  rewrite (extractMetadata_read _ Hn). unfold props_ok.
  destruct (forallb (fun entry => prop_ok (snd entry)) (entries (properties_of page)))
    eqn:E.
  - destruct (metadata_loop _ E {| own := page_fields page; proto := ObjectPrototype |})
      as (m & -> & _).
    cbn [mbind result_bind]. now split.
  - rewrite (metadata_loop_throws _ E). cbn [mbind result_bind]. auto.
Qed.

Lemma last_write_app k pre post :
  last_write k (pre ++ post)
  = match last_write k post with
    | Some v => Some v
    | None => last_write k pre
    end.
Proof.
  induction pre as [|entry r IH]; simpl; [now destruct (last_write k post)|].
  rewrite IH. now destruct (last_write k post).
Qed.

Lemma writes_none k entry :
  toLowerCase (fst entry) <> k \/ extracted (snd entry) = None ->
  writes k entry = None.
Proof.
  unfold writes. intros H.
  destruct (String.eqb (toLowerCase (fst entry)) k) eqn:E; [|reflexivity].
  apply String.eqb_eq in E. now destruct H.
Qed.

Lemma last_write_none k es :
  Forall (fun entry => toLowerCase (fst entry) <> k \/ extracted (snd entry) = None) es ->
  last_write k es = None.
Proof.
  induction 1 as [|entry r H _ IH]; simpl; [reflexivity|].
  now rewrite IH, (writes_none _ _ H).
Qed.

Lemma page_fields_times page :
  page_fields page !! "createdTime" = Some (or_else (read page "created_time") (Str "")) /\
  page_fields page !! "lastEditedTime"
  = Some (or_else (read page "last_edited_time") (Str "")) /\
  page_fields page !! "url" = Some (or_else (read page "url") (Str "")).
Proof.
  unfold page_fields, fixed_fields. split; [|split].
  - rewrite !lookup_insert_ne by discriminate. apply lookup_insert_eq.
  - rewrite lookup_insert_ne by discriminate. apply lookup_insert_eq.
  - apply lookup_insert_eq.
Qed.

Lemma extract_property_keys metadata metadata' key prop :
  extract_property metadata (key, prop) = Ok metadata' ->
  own metadata' = own metadata \/
  exists v, own metadata' = <[toLowerCase key := v]> (own metadata).
Proof.
  unfold extract_property. intros H.
  repeat match type of H with
         | (if ?b then _ else _) = _ => destruct b
         | (?x ≫= _) = _ =>
             destruct x; [rewrite bind_ok in H; cbv beta in H|discriminate H]
         end;
    injection H as <-; auto;
    match goal with
    | |- context [set_field ?k ?v ?m] => destruct (set_field_cases k v m) as [->| ->]
    end; eauto.
Qed.

Lemma metadata_loop_other es (k : string) :
  (forall key, toLowerCase key <> k) ->
  forall metadata metadata',
    for_of es metadata extract_property = Ok metadata' ->
    own metadata' !! k = own metadata !! k.
Proof.
  intros Hk. induction es as [|[key prop] r IH]; cbn [for_of]; intros m m' H.
  - now injection H as <-.
  - destruct (extract_property m (key, prop)) as [m1|] eqn:E; [|discriminate H].
    rewrite bind_ok in H. rewrite (IH _ _ H).
    destruct (extract_property_keys _ _ _ _ E) as [->|[v ->]]; [reflexivity|].
    apply lookup_insert_ne, Hk.
Qed.

Lemma extractMetadata_last_write page :
  is_nullish page = false ->
  props_ok page = true ->
  exists m : gmap string value,
    extractMetadata page = Ok m /\
    forall k,
      k <> "__proto__" ->
      m !! k = match last_write k (entries (properties_of page)) with
               | Some v => Some v
               | None => page_fields page !! k
               end.
Proof.
  intros Hn Hp. rewrite (extractMetadata_read _ Hn).
  destruct (metadata_loop _ Hp {| own := page_fields page; proto := ObjectPrototype |})
    as (metadata & -> & L).
  exists (own metadata). split; [reflexivity|exact L].
Qed.

(** C7, as amended.  Metadata extraction returns a record exactly for the
    page objects whose properties the extractor can process: none is
    [null], and one of declared type multi_select carries a payload that is
    falsy or a list of items none of which is [null].  In every record it
    returns, the own fields [createdTime] and [lastEditedTime] hold the
    page-level values, the empty string when missing; every own field but
    [__proto__] holds the value of the last property-bag entry that writes
    under that lower-cased name, an entry writing when its declared type is
    select, multi_select or date and the payload of that name is truthy; a
    field no entry writes is the fixed one, [url] from the page level
    included, or is absent: entries of other declared types and entries
    without a truthy payload contribute no field. *)
Theorem extractMetadata_fields (page : value) :
  (is_nullish page = false /\ props_ok page = true <->
   exists m, extractMetadata page = Ok m) /\
  forall m : gmap string value,
    extractMetadata page = Ok m ->
    m !! "createdTime" = Some (or_else (read page "created_time") (Str "")) /\
    m !! "lastEditedTime" = Some (or_else (read page "last_edited_time") (Str "")) /\
    (forall k,
       k <> "__proto__" ->
       m !! k = match last_write k (entries (properties_of page)) with
                | Some v => Some v
                | None => page_fields page !! k
                end) /\
    (forall pre key prop post v,
       entries (properties_of page) = pre ++ (key, prop) :: post ->
       extracted prop = Some v ->
       toLowerCase key <> "__proto__" ->
       Forall (fun entry => toLowerCase (fst entry) <> toLowerCase key \/
                            extracted (snd entry) = None) post ->
       m !! toLowerCase key = Some v) /\
    (forall k,
       k <> "__proto__" ->
       Forall (fun entry => toLowerCase (fst entry) <> k \/
                            extracted (snd entry) = None)
              (entries (properties_of page)) ->
       m !! k = page_fields page !! k).
Proof.
  pose proof (extractMetadata_cases page) as C. split.
  { destruct (extractMetadata page) as [m|e].
    - split; eauto.
    - destruct C as [C _]. split; [|intros [? [=]]].
      intros [Hn Hp]. destruct C as [C|C]; rewrite C in *; discriminate. }
  intros m Em. rewrite Em in C. destruct C as [Hn Hp].
  destruct (extractMetadata_last_write page Hn Hp) as (m' & E & L).
  rewrite Em in E. injection E as <-.
  destruct (page_fields_times page) as (Hc & He & _).
  assert (N : forall k, (forall key, toLowerCase key <> k) ->
                last_write k (entries (properties_of page)) = None).
  { intros k Hk. apply last_write_none, List.Forall_forall. intros [key prop] _.
    left. apply Hk. }
  split; [|split; [|split; [exact L|split]]].
  - rewrite L by discriminate. rewrite N; [exact Hc|].
    intros key. apply toLowerCase_not_fixed.
  - rewrite L by discriminate. rewrite N; [exact He|].
    intros key. apply toLowerCase_not_fixed.
  - intros pre key prop post v Es Ev Hk Hpost. rewrite (L _ Hk), Es, last_write_app.
    cbn [last_write]. rewrite (last_write_none _ _ Hpost).
    unfold writes. cbn [fst snd]. now rewrite String.eqb_refl, Ev.
  - intros k Hk Hw. now rewrite (L _ Hk), (last_write_none _ _ Hw).
Qed.

Lemma extractMetadata_fields_witness :
  exists m : gmap string value,
    extractMetadata page_with_unset_select = Ok m /\
    m !! "createdTime" = Some (Str "2025-01-01T09:00:00.000Z") /\
    m !! "tags" = Some (Str "b") /\
    m !! "status" = None.
Proof.
  destruct (extractMetadata_fields page_with_unset_select) as [Returns Fields].
  destruct (proj1 Returns (conj eq_refl eq_refl)) as [m E].
  destruct (Fields m E) as (Hc & _ & L & _).
  exists m. split; [exact E|]. split; [exact Hc|].
  split; [exact (L "tags" ltac:(discriminate))|exact (L "status" ltac:(discriminate))].
Defined.

(** C7, as stated, fails: a select property with no option chosen has the
    declared type select and leaves no field, and of two properties whose
    names lower-case alike only the later one is kept. *)
Lemma extractMetadata_unset_select_no_field :
  exists m : gmap string value,
    extractMetadata page_with_unset_select = Ok m /\
    In ("Status", unset_select) (entries (properties_of page_with_unset_select)) /\
    declared_dynamic unset_select = true /\
    m !! toLowerCase "Status" = None /\
    extracted (multi_select_prop ["a"]) = Some (Arr [Str "a"]) /\
    m !! toLowerCase "Tags" = Some (Str "b") /\
    ~ spec_metadata page_with_unset_select m.
Proof.
  destruct (extractMetadata_last_write page_with_unset_select eq_refl eq_refl)
    as (m & E & L).
  assert (Hs : m !! toLowerCase "Status" = None)
    by exact (L (toLowerCase "Status") ltac:(discriminate)).
  exists m. split; [exact E|]. split; [simpl; tauto|]. split; [reflexivity|].
  split; [exact Hs|]. split; [reflexivity|].
  split; [exact (L (toLowerCase "Tags") ltac:(discriminate))|].
  intros (_ & _ & _ & H).
  destruct (H "Status" unset_select) as (v & Hv & _); [simpl; tauto|reflexivity|].
  rewrite Hs in Hv. discriminate Hv.
Qed.

(** C10.  A select property named [Url] lower-cases to [url] and overwrites
    the field taken from the page-level URL; [createdTime] and
    [lastEditedTime] always hold the page-level values, because no
    lower-cased name equals a key with an upper-case letter. *)
Theorem url_overwritten_times_kept (page : value) (m : gmap string value) :
  extractMetadata page = Ok m ->
  m !! "createdTime" = Some (or_else (read page "created_time") (Str "")) /\
  m !! "lastEditedTime" = Some (or_else (read page "last_edited_time") (Str "")) /\
  (forall key, toLowerCase key <> "createdTime" /\ toLowerCase key <> "lastEditedTime") /\
  toLowerCase "Url" = "url" /\
  exists m' : gmap string value,
    extractMetadata page_with_url_property = Ok m' /\
    m' !! "url" = Some (Str "docs") /\
    page_fields page_with_url_property !! "url" = Some (Str "https://www.notion.so/p1").
Proof.
  intros E. destruct (extractMetadata_returned _ _ E) as (Hn & metadata & Loop & ->).
  destruct (page_fields_times page) as (Hc & He & _).
  split; [|split; [|split; [apply toLowerCase_not_fixed|split; [reflexivity|]]]].
  - rewrite (metadata_loop_other _ "createdTime"
               (fun key => proj1 (toLowerCase_not_fixed key)) _ _ Loop).
    exact Hc.
  - rewrite (metadata_loop_other _ "lastEditedTime"
               (fun key => proj2 (toLowerCase_not_fixed key)) _ _ Loop).
    exact He.
  - destruct (extractMetadata_last_write page_with_url_property eq_refl eq_refl)
      as (m' & E' & L).
    exists m'. split; [exact E'|].
    split; [exact (L "url" ltac:(discriminate))|reflexivity].
Qed.

Lemma url_overwritten_times_kept_witness :
  exists m : gmap string value,
    extractMetadata page_with_url_property = Ok m /\
    m !! "createdTime" = Some (Str "2025-01-01T09:00:00.000Z") /\
    m !! "lastEditedTime" = Some (Str "2025-01-02T10:30:00.000Z").
Proof.
  destruct (extractMetadata page_with_url_property) as [m|e] eqn:E.
  - exists m. split; [reflexivity|].
    destruct (url_overwritten_times_kept page_with_url_property m E) as (Hc & He & _).
    split; [exact Hc|exact He].
  - exfalso.
    destruct (extractMetadata_last_write page_with_url_property eq_refl eq_refl)
      as (m' & E' & _).
    rewrite E in E'. discriminate E'.
Defined.

(** * Further properties *)

(** ** Slugifier *)

Lemma chars_app s1 s2 :
  list_ascii_of_string (s1 +:+ s2)
  = list_ascii_of_string s1 ++ list_ascii_of_string s2.
Proof. induction s1 as [|c r IH]; simpl; [reflexivity|]. now rewrite IH. Qed.

Lemma chars_length s : length (list_ascii_of_string s) = String.length s.
Proof. induction s as [|c r IH]; simpl; [reflexivity|]. now rewrite IH. Qed.

Lemma text_length l : String.length (string_of_list_ascii l) = length l.
Proof. induction l as [|c r IH]; simpl; [reflexivity|]. now rewrite IH. Qed.

Lemma clean_no_double_hyphen b pre post :
  clean b (pre ++ "-"%char :: "-"%char :: post) = false.
Proof.
  revert b. induction pre as [|c r IH]; intros b; simpl.
  - now rewrite andb_false_r.
  - destruct (is_hyphen c); rewrite IH; apply andb_false_r.
Qed.

(** X1.  The output of [slugify] never contains two hyphens in a row. *)
Theorem slugify_no_double_hyphen (s : string) (pre post : list ascii) :
  list_ascii_of_string (slugify s) <> pre ++ "-"%char :: "-"%char :: post.
Proof.
  rewrite slugify_chars, list_ascii_of_string_of_list_ascii. intros E.
  destruct (slug_of_chars_form (list_ascii_of_string s)) as (C & _ & _).
  rewrite E, clean_no_double_hyphen in C. discriminate C.
Qed.

(** X2.  The strings [slugify] leaves unchanged are exactly the strings in
    slug form: characters [a-z], [0-9] and single hyphens, with no hyphen at
    either end. *)
Theorem slugify_fixed_points (s : string) :
  slugify s = s <-> slug_form (list_ascii_of_string s).
Proof.
  rewrite slugify_chars. split.
  - intros E. rewrite <- E at 1. rewrite list_ascii_of_string_of_list_ascii.
    apply slug_of_chars_form.
  - intros F. rewrite (slug_form_fixed _ F). apply string_of_list_ascii_of_string.
Qed.

Lemma drop_leading_shorter p l : length (drop_leading p l) <= length l.
Proof. apply drop_leading_length. Qed.

Lemma drop_trailing_shorter p l : length (drop_trailing p l) <= length l.
Proof.
  induction l as [|c r IH]; simpl; [lia|].
  destruct (drop_trailing p r); [destruct (p c)|]; simpl in *; lia.
Qed.

Lemma collapse_shorter b l : length (collapse_runs b l) <= length l.
Proof.
  revert b. induction l as [|c r IH]; intros b; simpl; [lia|].
  destruct (is_separator c); [destruct b|]; simpl;
    first [ pose proof (IH true); lia | pose proof (IH false); lia ].
Qed.

(** X3.  A slug is never longer than the text it comes from. *)
Theorem slugify_length (s : string) :
  String.length (slugify s) <= String.length s.
Proof.
  rewrite slugify_chars, text_length, <- chars_length.
  unfold slug_of_chars, slug_chars, strip_hyphens, collapse_separators,
    remove_disallowed, trim_chars.
  set (l := list_ascii_of_string s).
  pose proof (drop_trailing_shorter is_hyphen
    (drop_leading is_hyphen (collapse_runs false
       (List.filter keeps (drop_trailing is_space (drop_leading is_space (map lower_char l))))))).
  pose proof (drop_leading_shorter is_hyphen
    (collapse_runs false
       (List.filter keeps (drop_trailing is_space (drop_leading is_space (map lower_char l)))))).
  pose proof (collapse_shorter false
    (List.filter keeps (drop_trailing is_space (drop_leading is_space (map lower_char l))))).
  pose proof (List.filter_length_le keeps
    (drop_trailing is_space (drop_leading is_space (map lower_char l)))).
  pose proof (drop_trailing_shorter is_space (drop_leading is_space (map lower_char l))).
  pose proof (drop_leading_shorter is_space (map lower_char l)).
  pose proof (List.length_map lower_char l). lia.
Qed.

Lemma space_kept c : is_space c = true -> keeps c = true.
Proof. each_char c. Qed.

Lemma space_separator c : is_space c = true -> is_separator c = true.
Proof. each_char c. Qed.

Lemma lower_char_space c : is_space (lower_char c) = is_space c.
Proof. each_char c. Qed.

Lemma drop_ends_commute p l :
  drop_trailing p (drop_leading p l) = drop_leading p (drop_trailing p l).
Proof.
  induction l as [|c r IH]; [reflexivity|]. cbn [drop_trailing drop_leading].
  destruct (p c) eqn:E.
  - rewrite IH. destruct (drop_trailing p r); cbn [drop_leading]; now rewrite ?E.
  - cbn [drop_trailing].
    destruct (drop_trailing p r); rewrite ?E; cbn [drop_leading]; now rewrite E.
Qed.

Lemma strip_collapse_flag b l :
  drop_leading is_hyphen (collapse_runs b l)
  = drop_leading is_hyphen (collapse_runs true l).
Proof.
  destruct l as [|c r]; [reflexivity|]. simpl.
  destruct (is_separator c); [|reflexivity]. now destruct b.
Qed.

Lemma strip_leading_space b l :
  drop_leading is_hyphen (collapse_runs b (remove_disallowed (drop_leading is_space l)))
  = drop_leading is_hyphen (collapse_runs b (remove_disallowed l)).
Proof.
  induction l as [|c r IH]; [reflexivity|]. simpl.
  destruct (is_space c) eqn:E; [|reflexivity].
  rewrite (space_kept c E). simpl. rewrite (space_separator c E), IH.
  rewrite (strip_collapse_flag b). now destruct b.
Qed.

Lemma drop_trailing_cons p c l l' :
  drop_trailing p l = drop_trailing p l' ->
  drop_trailing p (c :: l) = drop_trailing p (c :: l').
Proof. simpl. now intros ->. Qed.

Lemma strip_collapse_cons b c l l' :
  (forall b', drop_trailing is_hyphen (collapse_runs b' l)
              = drop_trailing is_hyphen (collapse_runs b' l')) ->
  drop_trailing is_hyphen (collapse_runs b (c :: l))
  = drop_trailing is_hyphen (collapse_runs b (c :: l')).
Proof.
  intros H. simpl. destruct (is_separator c); [destruct b|];
    auto using drop_trailing_cons.
Qed.

Lemma strip_spaces b l :
  Forall (fun c => is_space c = true) l ->
  drop_trailing is_hyphen (collapse_runs b l) = [].
Proof.
  intros H. revert b. induction H as [|c r Hc _ IH]; intros b; [reflexivity|].
  simpl. rewrite (space_separator c Hc). destruct b; [apply IH|].
  simpl. now rewrite IH.
Qed.

Lemma strip_trailing_spaces b l spaces :
  Forall (fun c => is_space c = true) spaces ->
  drop_trailing is_hyphen (collapse_runs b (l ++ spaces))
  = drop_trailing is_hyphen (collapse_runs b l).
Proof.
  intros H. revert b. induction l as [|c r IH]; intros b.
  - simpl. now rewrite strip_spaces.
  - change ((c :: r) ++ spaces) with (c :: (r ++ spaces)).
    now apply strip_collapse_cons.
Qed.

Lemma drop_trailing_nil p l :
  drop_trailing p l = [] -> Forall (fun c => p c = true) l.
Proof.
  induction l as [|c r IH]; simpl; [constructor|].
  destruct (drop_trailing p r); [|discriminate].
  destruct (p c) eqn:E; [|discriminate]. intros _. constructor; auto.
Qed.

Lemma spaces_kept l :
  Forall (fun c => is_space c = true) l -> remove_disallowed l = l.
Proof.
  unfold remove_disallowed. induction 1 as [|c r Hc _ IH]; simpl; [reflexivity|].
  now rewrite (space_kept c Hc), IH.
Qed.

Lemma strip_trailing_space l :
  forall b,
    drop_trailing is_hyphen (collapse_runs b (remove_disallowed (drop_trailing is_space l)))
    = drop_trailing is_hyphen (collapse_runs b (remove_disallowed l)).
Proof.
  induction l as [|c r IH]; intros b; [reflexivity|].
  cbn [drop_trailing]. destruct (drop_trailing is_space r) as [|x r'] eqn:E.
  - apply drop_trailing_nil in E.
    change (c :: r) with ([c] ++ r). unfold remove_disallowed at 2.
    rewrite List.filter_app. fold (remove_disallowed r). rewrite (spaces_kept r E).
    rewrite strip_trailing_spaces by exact E.
    destruct (is_space c) eqn:Ec; [|reflexivity].
    simpl. rewrite (space_kept c Ec). simpl. rewrite (space_separator c Ec).
    now destruct b.
  - unfold remove_disallowed in *. cbn [List.filter].
    destruct (keeps c); [apply strip_collapse_cons|]; apply IH.
Qed.

Lemma slug_chars_trim l : slug_chars (trim_chars l) = slug_chars l.
Proof.
  unfold slug_chars, strip_hyphens, collapse_separators, trim_chars.
  rewrite !(drop_ends_commute is_hyphen), strip_trailing_space.
  now rewrite <- !(drop_ends_commute is_hyphen), strip_leading_space.
Qed.

Lemma trim_chars_lower l :
  trim_chars (map lower_char l) = map lower_char (trim_chars l).
Proof.
  unfold trim_chars.
  assert (L : forall l, drop_leading is_space (map lower_char l)
                        = map lower_char (drop_leading is_space l)).
  { clear l. induction l as [|c r IH]; [reflexivity|]. simpl.
    rewrite lower_char_space. now destruct (is_space c). }
  assert (T : forall l, drop_trailing is_space (map lower_char l)
                        = map lower_char (drop_trailing is_space l)).
  { clear l L. induction l as [|c r IH]; [reflexivity|]. simpl.
    rewrite IH, lower_char_space.
    destruct (drop_trailing is_space r); [now destruct (is_space c)|reflexivity]. }
  now rewrite L, T.
Qed.

(** X4.  The trim step of [slugify] is redundant, and white space around
    the text does not change the slug: the later steps turn surrounding
    white space into hyphens and strip them. *)
Theorem slugify_trim_redundant (s : string) :
  slugify s
  = string_of_list_ascii (slug_chars (list_ascii_of_string (toLowerCase s))) /\
  slugify (trim s) = slugify s.
Proof.
  assert (E : forall x, slug_of_chars x = slug_chars (map lower_char x)).
  { intros x. apply slug_chars_trim. }
  split.
  - rewrite slugify_chars, E. unfold toLowerCase.
    now rewrite list_ascii_of_string_of_list_ascii.
  - rewrite !slugify_chars, !E. unfold trim.
    rewrite list_ascii_of_string_of_list_ascii, <- trim_chars_lower.
    now rewrite slug_chars_trim.
Qed.

(** X5.  A character that [slugify] deletes, one that is neither a word
    character, white space nor a hyphen once lower-cased, never influences
    the slug, wherever it stands: titles that differ only in such characters
    get the same slug. *)
Theorem slugify_ignores_deleted_characters (s1 s2 : string) (c : ascii) :
  keeps (lower_char c) = false ->
  slugify (s1 +:+ String c s2) = slugify (s1 +:+ s2).
Proof.
  intros K. rewrite !slugify_chars. f_equal. unfold slug_of_chars.
  rewrite !slug_chars_trim, !chars_app. cbn [list_ascii_of_string].
  rewrite !List.map_app. cbn [map]. unfold slug_chars, remove_disallowed.
  rewrite !List.filter_app. cbn [List.filter]. now rewrite K.
Qed.

Lemma slugify_ignores_deleted_characters_witness :
  slugify ("My Page" +:+ String "!" "") = slugify ("My Page" +:+ "").
Proof. apply slugify_ignores_deleted_characters. reflexivity. Defined.

(** ** Rich text *)

(** X6.  [extractRichText], called on [value || []], returns exactly when
    the value is absent, a string, or an array of spans none of which is
    [undefined] or [null] and each of which has a plain text that converts
    to a string; on every other value it throws a [TypeError]. *)
Theorem extractRichText_returns_iff (rt : value) :
  (spans_ok rt = true <-> exists text, extractRichText (or_else rt (Arr [])) = Ok text) /\
  (spans_ok rt = false <-> extractRichText (or_else rt (Arr [])) = Throw TypeError).
Proof.
  destruct (spans_ok rt) eqn:E.
  - destruct (extractRichText_ok rt E) as [text H]. rewrite H.
    split; split; eauto; discriminate.
  - rewrite (extractRichText_throws rt E).
    split; split; auto; try discriminate. intros [? [=]].
Qed.

(** X7.  Rendering is compositional: the text of a list of spans is the
    text of any front part followed by the text of the rest, and it throws
    exactly when one of the two parts does. *)
Theorem extractRichText_app (a b : list value) :
  extractRichText (Arr (a ++ b))
  = (x ← extractRichText (Arr a); y ← extractRichText (Arr b); Ok (x +:+ y)).
Proof.
  unfold extractRichText. cbn [iterate]. rewrite !bind_ok, for_of_app.
  destruct (for_of a [] render_span) as [pa|e]; cbn [mbind result_bind];
    [|reflexivity].
  rewrite (for_of_shift render_span b render_span_shift pa).
  destruct (for_of b [] render_span) as [pb|[]]; cbn [mbind result_bind app].
  - apply join_app.
  - now destruct (join "" pa) as [|[]].
Qed.

Lemma render_chars l parts :
  for_of (map (fun c => Str (String c EmptyString)) l) parts render_span
  = Ok (parts ++ map (fun _ => Str "") l).
Proof.
  revert parts. induction l as [|c r IH]; intros parts; cbn [map for_of].
  - now rewrite app_nil_r.
  - rewrite (render_span_shift parts).
    assert (E : render_span [] (Str (String c EmptyString)) = Ok [Str ""]).
    { unfold render_span. cbn [get].
      change (String.eqb "plain_text" "length") with false.
      change (String.eqb "plain_text" "bold") with false.
      change (String.eqb "annotations" "length") with false.
      change (String.eqb "annotations" "bold") with false.
      cbn [char_values list_ascii_of_string map lookup_index].
      destruct (String.eqb "plain_text" (pretty 0)) eqn:E1;
        [apply String.eqb_eq in E1; discriminate E1|].
      destruct (String.eqb "annotations" (pretty 0)) eqn:E2;
        [apply String.eqb_eq in E2; discriminate E2|].
      reflexivity. }
    rewrite E, !bind_ok, IH, <- app_assoc. reflexivity.
Qed.

Lemma join_empty_strings {A : Type} (l : list A) :
  join "" (map (fun _ => Str "") l) = Ok "".
Proof.
  induction l as [|x r IH]; [reflexivity|].
  change (map (fun _ => Str "") (x :: r)) with (Str "" :: map (fun _ : A => Str "") r).
  now rewrite join_cons, IH.
Qed.

(** X8.  A rich-text value that is a string instead of a list of spans is
    not rejected: the loop visits its characters, none of which has a plain
    text, and the result is the empty string. *)
Theorem extractRichText_of_string (s : string) :
  extractRichText (Str s) = Ok "".
Proof.
  unfold extractRichText. simpl iterate. rewrite bind_ok. unfold char_values.
  rewrite render_chars, bind_ok. simpl app. now rewrite join_empty_strings.
Qed.

(** ** Blocks *)

Ltac split_binds :=
  repeat match goal with
         | |- context [?x ≫= _] =>
             lazymatch x with
             | Ok _ => fail
             | Throw _ => fail
             | if _ then _ else _ => fail
             | _ ≫= _ => fail
             | _ => destruct x
             end; cbn [mbind result_bind]
         | |- context [if ?b then _ else _] => destruct b; cbn [mbind result_bind]
         end.

Lemma dispatch_shift content blockType blockData :
  dispatch content blockType blockData
  = (fragments ← dispatch [] blockType blockData; Ok (content ++ fragments)).
Proof.
  unfold dispatch. destruct (recognise blockType) as [[]|];
    split_binds; cbn [mbind result_bind app]; rewrite ?app_nil_r; reflexivity.
Qed.

Lemma process_block_shift content block :
  process_block content block
  = (fragments ← process_block [] block; Ok (content ++ fragments)).
Proof.
  unfold process_block. destruct (get block "type") as [blockType|]; [|reflexivity].
  cbn [mbind result_bind].
  destruct (to_string blockType) as [key|]; [|reflexivity]. cbn [mbind result_bind].
  destruct (get block key); [|reflexivity].
  cbn [mbind result_bind]. apply dispatch_shift.
Qed.

Lemma concat_app (a b : list string) :
  String.concat "" (a ++ b) = String.concat "" a +:+ String.concat "" b.
Proof.
  induction a as [|x [|y r] IH]; [reflexivity| |].
  - destruct b; simpl; [now rewrite append_empty|reflexivity].
  - change (String.concat "" ((x :: y :: r) ++ b))
      with (x +:+ "" +:+ String.concat "" ((y :: r) ++ b)).
    rewrite IH. change (String.concat "" (x :: y :: r))
      with (x +:+ "" +:+ String.concat "" (y :: r)).
    change ("" +:+ ?s) with s. now rewrite append_assoc.
Qed.

(** X9.  Block rendering is compositional: the body of a block sequence is
    the body of any front part followed by the body of the rest, and it
    throws exactly when one of the two parts does. *)
Theorem processBlocks_app (a b : list value) :
  processBlocks (a ++ b)
  = (x ← processBlocks a; y ← processBlocks b; Ok (x +:+ y)).
Proof.
  unfold processBlocks. rewrite for_of_app.
  destruct (for_of a [] process_block) as [ca|e]; cbn [mbind result_bind];
    [|reflexivity].
  rewrite (for_of_shift process_block b process_block_shift ca).
  destruct (for_of b [] process_block) as [cb|e]; cbn [mbind result_bind];
    [|reflexivity].
  now rewrite concat_app.
Qed.

(** X10.  [processBlocks] returns a body exactly when every block is an
    object (not [undefined] or [null]) whose type tag converts to a
    property key, and every recognised block hands [extractRichText] a
    value it accepts and prints only values that convert to strings (the
    language of a code block, the URL of an image, the emoji of a callout);
    otherwise it throws a [TypeError] and no body at all is produced. *)
Theorem processBlocks_returns_iff (blocks : list value) :
  (forallb well_shaped blocks = true <-> exists body, processBlocks blocks = Ok body) /\
  (forallb well_shaped blocks = false <-> processBlocks blocks = Throw TypeError).
Proof.
  unfold processBlocks. destruct (forallb well_shaped blocks) eqn:E.
  - destruct (process_blocks_ok blocks E []) as [fs Hfs]. rewrite Hfs, bind_ok.
    split; split; eauto; discriminate.
  - rewrite (process_blocks_throw blocks E []).
    split; split; auto; try discriminate. intros [? [=]].
Qed.

Lemma newline_end : exists pre, nl = pre +:+ nl.
Proof. now exists "". Qed.

Lemma newline_end_app a b :
  (exists pre, b = pre +:+ nl) -> exists pre, a +:+ b = pre +:+ nl.
Proof. intros [pre ->]. exists (a +:+ pre). now rewrite append_assoc. Qed.

Lemma dispatch_newlines blockType blockData :
  match dispatch [] blockType blockData with
  | Ok fragments => Forall (fun f => exists pre, f = pre +:+ nl) fragments
  | Throw _ => True
  end.
Proof.
  unfold dispatch. destruct (recognise blockType) as [[]|];
    split_binds; cbn [app]; trivial; repeat constructor;
    repeat apply newline_end_app; apply newline_end.
Qed.

Lemma process_block_newlines block fragments :
  process_block [] block = Ok fragments ->
  Forall (fun f => exists pre, f = pre +:+ nl) fragments.
Proof.
  unfold process_block. destruct (get block "type") as [blockType|]; [|discriminate].
  cbn [mbind result_bind].
  destruct (to_string blockType) as [key|]; [|discriminate]. cbn [mbind result_bind].
  destruct (get block key) as [d|]; [|discriminate].
  cbn [mbind result_bind]. intros H.
  pose proof (dispatch_newlines blockType (or_else d (Obj []))) as N.
  now rewrite H in N.
Qed.

Lemma process_blocks_newlines blocks :
  forall content content',
    for_of blocks content process_block = Ok content' ->
    Forall (fun f => exists pre, f = pre +:+ nl) content ->
    Forall (fun f => exists pre, f = pre +:+ nl) content'.
Proof.
  induction blocks as [|b r IH]; cbn [for_of]; intros content content' H F.
  - now injection H as <-.
  - rewrite process_block_shift in H.
    destruct (process_block [] b) as [fs|] eqn:E; [|discriminate H].
    cbn [mbind result_bind] in H. apply (IH _ _ H).
    apply Forall_app. split; [exact F|]. now apply process_block_newlines with (block := b).
Qed.

Lemma concat_newlines l :
  Forall (fun f => exists pre, f = pre +:+ nl) l ->
  String.concat "" l = "" \/ exists pre, String.concat "" l = pre +:+ nl.
Proof.
  induction 1 as [|x r Hx _ IH]; [now left|]. right.
  change (x :: r) with ([x] ++ r). rewrite concat_app.
  change (String.concat "" [x]) with x.
  destruct IH as [->|IH]; [now rewrite append_empty|now apply newline_end_app].
Qed.

(** X11.  A body is either empty or ends with a newline: every fragment a
    block contributes ends with one, so bodies can be concatenated without
    two blocks running into one line. *)
Theorem processBlocks_ends_with_newline (blocks : list value) (body : string) :
  processBlocks blocks = Ok body ->
  body = "" \/ exists pre, body = pre +:+ nl.
Proof.
  unfold processBlocks. destruct (for_of blocks [] process_block) as [content|] eqn:E;
    [|discriminate].
  cbn [mbind result_bind]. intros [= <-]. apply concat_newlines.
  now apply (process_blocks_newlines blocks [] content E).
Qed.

Lemma processBlocks_ends_with_newline_witness :
  "Hello" +:+ nl +:+ nl +:+ "* item" +:+ nl = ""
  \/ exists pre, "Hello" +:+ nl +:+ nl +:+ "* item" +:+ nl = pre +:+ nl.
Proof.
  apply (processBlocks_ends_with_newline
           [ block_of "paragraph" [("rich_text", Arr [plain_span "Hello"])];
             block_of "bulleted_list_item" [("rich_text", Arr [plain_span "item"])] ]).
  reflexivity.
Defined.

(** X12.  A to-do block whose rich text renders gives a task-list line
    whose box is ticked exactly when the [checked] flag is truthy; a missing
    flag leaves the box empty. *)
Theorem todo_block_markup (block : value) :
  is_nullish block = false ->
  block_tag block = Some ToDo ->
  spans_ok (read (block_data block) "rich_text") = true ->
  exists text,
    rich_text_of (block_data block) "rich_text" = Ok text /\
    processBlocks [block]
    = Ok (if truthy (read (block_data block) "checked")
          then "- [x] " +:+ text +:+ nl
          else "- [ ] " +:+ text +:+ nl).
Proof.
  intros Hn Ht Hs. pose proof (block_data_truthy block) as Hd.
  destruct (rich_text_of_ok _ _ Hd Hs) as [text Hx]. exists text. split; [exact Hx|].
  unfold processBlocks. cbn [for_of]. unfold block_tag in Ht.
  rewrite (process_block_read _ _ Hn (recognised_printable _ _ Ht)).
  unfold dispatch. rewrite Ht, Hx. run_reads Hd.
  now destruct (truthy (read (block_data block) "checked")).
Qed.

Lemma todo_block_markup_witness :
  exists text,
    rich_text_of
      (block_data (block_of "to_do" [ ("rich_text", Arr [plain_span "Buy milk"]);
                                      ("checked", Bool true) ]))
      "rich_text" = Ok text /\
    processBlocks [ block_of "to_do" [ ("rich_text", Arr [plain_span "Buy milk"]);
                                       ("checked", Bool true) ] ]
    = Ok ("- [x] " +:+ text +:+ nl).
Proof.
  exact (todo_block_markup
           (block_of "to_do" [ ("rich_text", Arr [plain_span "Buy milk"]);
                               ("checked", Bool true) ])
           eq_refl eq_refl eq_refl).
Defined.

(** ** Title *)

Lemma title_parts_texts parts texts :
  Forall2 (fun part t => is_nullish part = false /\ read part "plain_text" = Str t)
          parts texts ->
  forallb (fun part => negb (is_nullish part)) parts = true /\
  map (fun part => or_else (read part "plain_text") (Str "")) parts = map Str texts.
Proof.
  induction 1 as [|part t parts texts [Hn Hp] _ [IH1 IH2]]; [now split|].
  cbn [forallb map]. now rewrite Hn, Hp, or_else_string, IH1, IH2.
Qed.

(** X13.  When the selected property (Name, else Title) carries a list of
    parts, the title is the concatenation of the parts' plain texts, without
    separator and without any of the inline markup; an empty list gives the
    empty title, not [Untitled]. *)
Theorem extractTitle_concatenates_parts (page : value) (parts : list value)
    (texts : list string) :
  is_nullish page = false ->
  title_value page = Arr parts ->
  Forall2 (fun part t => is_nullish part = false /\ read part "plain_text" = Str t)
          parts texts ->
  extractTitle page = Ok (String.concat "" texts) /\
  (parts = [] -> extractTitle page = Ok "").
Proof.
  intros Hn Ht F. destruct (title_parts_texts _ _ F) as [Hok Hmap].
  assert (E : extractTitle page = Ok (String.concat "" texts)).
  { rewrite (extractTitle_read _ Hn), Ht. cbn [truthy call_map].
    rewrite (map_elems_read "plain_text" parts Hok), bind_ok, Hmap.
    now rewrite join_strings. }
  split; [exact E|]. intros ->. inversion F. subst. exact E.
Qed.

Lemma extractTitle_concatenates_parts_witness :
  extractTitle (page_of "https://www.notion.so/p1"
                  [ ("Name", title_prop_of ["My"; " Page"]) ])
  = Ok (String.concat "" ["My"; " Page"]).
Proof.
  refine (proj1 (extractTitle_concatenates_parts
                   (page_of "https://www.notion.so/p1"
                      [ ("Name", title_prop_of ["My"; " Page"]) ])
                   [plain_span "My"; plain_span " Page"] ["My"; " Page"]
                   eq_refl eq_refl _)).
  repeat constructor.
Defined.

(** ** Metadata *)

(** X14.  [extractMetadata] returns a record exactly when the page is an
    object and every property is one it can process: not [null], and with a
    [multi_select] payload that is absent or a list of items none of which is
    [null]; otherwise it throws a [TypeError]. *)
Theorem extractMetadata_returns_iff (page : value) :
  (is_nullish page = false /\ props_ok page = true <->
   exists m, extractMetadata page = Ok m) /\
  (is_nullish page = true \/ props_ok page = false <->
   extractMetadata page = Throw TypeError).
Proof.
  pose proof (extractMetadata_cases page) as C.
  destruct (extractMetadata page) as [m|e].
  - destruct C as [Hn Hp]. rewrite Hn, Hp.
    split; split; eauto; try discriminate. intros [[=]|[=]].
  - destruct C as [C ->]. split; (split; [|auto]).
    + intros [Hn Hp]. destruct C as [C|C]; rewrite C in *; discriminate.
    + intros [? [=]].
    + intros _. reflexivity.
Qed.

Lemma typed_payload_truthy prop propType name payload :
  typed_payload prop propType name = Ok payload ->
  truthy payload = true ->
  propType = Str name.
Proof.
  unfold typed_payload. destruct propType as [| | | |t| | |];
    try (intros [= <-]; discriminate).
  destruct (String.eqb t name) eqn:E; [|intros [= <-]; discriminate].
  apply String.eqb_eq in E. now subst.
Qed.

Lemma extract_property_declared metadata metadata' key prop :
  extract_property metadata (key, prop) = Ok metadata' ->
  own metadata' = own metadata \/
  declared_dynamic prop = true /\
  exists v, own metadata' = <[toLowerCase key := v]> (own metadata).
Proof.
  unfold extract_property, declared_dynamic, read.
  destruct (get prop "type") as [propType|]; [|discriminate]. cbn [mbind result_bind].
  destruct (typed_payload prop propType "select") as [select|] eqn:S; [|discriminate].
  cbn [mbind result_bind]. destruct (truthy select) eqn:Ts.
  { rewrite (typed_payload_truthy _ _ _ _ S Ts).
    destruct (get select "name") as [name|]; [|discriminate].
    cbn [mbind result_bind]. intros [= <-].
    destruct (set_field_cases (toLowerCase key) (or_else name (Str "")) metadata)
      as [->| ->]; eauto. }
  destruct (typed_payload prop propType "multi_select") as [multi|] eqn:M; [|discriminate].
  cbn [mbind result_bind]. destruct (truthy multi) eqn:Tm.
  { rewrite (typed_payload_truthy _ _ _ _ M Tm).
    destruct (call_map multi _) as [names|]; [|discriminate].
    cbn [mbind result_bind]. intros [= <-].
    destruct (set_field_cases (toLowerCase key) (Arr names) metadata) as [->| ->];
      eauto. }
  destruct (typed_payload prop propType "date") as [date|] eqn:D; [|discriminate].
  cbn [mbind result_bind]. destruct (truthy date) eqn:Td; [|intros [= <-]; auto].
  rewrite (typed_payload_truthy _ _ _ _ D Td).
  destruct (get date "start") as [start|]; [|discriminate].
  cbn [mbind result_bind]. intros [= <-].
  destruct (set_field_cases (toLowerCase key) (or_else start (Str "")) metadata)
    as [->| ->]; eauto.
Qed.

Lemma metadata_loop_keys es :
  forall metadata metadata',
    for_of es metadata extract_property = Ok metadata' ->
    forall k,
      (is_Some (own metadata !! k) -> is_Some (own metadata' !! k)) /\
      (is_Some (own metadata' !! k) ->
       is_Some (own metadata !! k) \/
       exists key prop,
         In (key, prop) es /\ declared_dynamic prop = true /\ k = toLowerCase key).
Proof.
  induction es as [|[key prop] r IH]; cbn [for_of]; intros m m' H k.
  - injection H as <-. auto.
  - destruct (extract_property m (key, prop)) as [m1|] eqn:E; [|discriminate H].
    rewrite bind_ok in H. destruct (IH _ _ H k) as [Keep Origin].
    destruct (extract_property_declared _ _ _ _ E) as [Em|[Hd [v Em]]];
      rewrite Em in Keep, Origin.
    + split; [exact Keep|]. intros Hk. destruct (Origin Hk) as [?|(key' & prop' & Hin & ?)];
        [now left|]. right. exists key', prop'. split; [now right|assumption].
    + split.
      * intros Hk. apply Keep. rewrite lookup_insert. now destruct (decide _).
      * intros Hk. destruct (Origin Hk) as [Hm|(key' & prop' & Hin & ?)].
        -- rewrite lookup_insert in Hm. destruct (decide (toLowerCase key = k)) as [<-|];
             [|now left]. right. exists key, prop. split; [now left|now split].
        -- right. exists key', prop'. split; [now right|assumption].
Qed.

(** X15.  Whenever [extractMetadata] returns, the record has the fields
    [createdTime], [lastEditedTime] and [url], and every other field is
    named by the lower-cased name of a property whose declared type is
    select, multi_select or date: a property is never dropped into the
    record under its original spelling, and no other kind of property leaves
    a field. *)
Theorem extractMetadata_keys (page : value) (m : gmap string value) :
  extractMetadata page = Ok m ->
  is_Some (m !! "createdTime") /\
  is_Some (m !! "lastEditedTime") /\
  is_Some (m !! "url") /\
  forall k,
    is_Some (m !! k) ->
    k = "createdTime" \/ k = "lastEditedTime" \/ k = "url" \/
    exists key prop,
      In (key, prop) (entries (properties_of page)) /\
      declared_dynamic prop = true /\
      k = toLowerCase key.
Proof.
  intros E. destruct (extractMetadata_returned _ _ E) as (Hn & metadata & Loop & ->).
  pose proof (metadata_loop_keys _ _ _ Loop) as K. cbn [own] in K.
  destruct (page_fields_times page) as (Hc & He & Hu).
  split; [apply K; rewrite Hc; eauto|].
  split; [apply K; rewrite He; eauto|].
  split; [apply K; rewrite Hu; eauto|].
  intros k Hk. destruct (proj2 (K k) Hk) as [Hf|?]; [|auto].
  unfold page_fields, fixed_fields in Hf.
  rewrite !lookup_insert in Hf.
  repeat destruct (decide _); subst; auto.
  rewrite lookup_empty in Hf. now destruct Hf.
Qed.

Lemma extractMetadata_keys_witness :
  exists m : gmap string value,
    extractMetadata page_with_url_property = Ok m /\
    is_Some (m !! "url").
Proof.
  destruct (extractMetadata page_with_url_property) as [m|e] eqn:E.
  - exists m. split; [reflexivity|].
    exact (proj1 (proj2 (proj2 (extractMetadata_keys page_with_url_property m E)))).
  - exfalso.
    destruct (extractMetadata_last_write page_with_url_property eq_refl eq_refl)
      as (m' & E' & _).
    rewrite E in E'. discriminate E'.
Defined.

(** ** Site generation *)

Lemma slug_char_not_path_separator c :
  is_slug_char c = true -> c <> "/"%char /\ c <> "\"%char.
Proof. intros H. split; intros ->; vm_compute in H; congruence. Qed.

Lemma slugify_slug_chars s :
  Forall (fun c => is_slug_char c = true) (list_ascii_of_string (slugify s)).
Proof.
  rewrite slugify_chars, list_ascii_of_string_of_list_ascii.
  destruct (slug_of_chars_form (list_ascii_of_string s)) as (C & _ & _).
  exact (clean_slug_chars _ _ C).
Qed.

(** X16.  A page file name is a slug followed by [.html]: it contains no
    path separator and is neither [.] nor [..], so every page is written
    directly inside the output directory, whatever its title. *)
Theorem pageFilename_safe (page : PageData) :
  (exists stem,
     pageFilename page = stem +:+ ".html" /\
     Forall (fun c => is_slug_char c = true) (list_ascii_of_string stem)) /\
  Forall (fun c => c <> "/"%char /\ c <> "\"%char)
         (list_ascii_of_string (pageFilename page)) /\
  pageFilename page <> "." /\
  pageFilename page <> "..".
Proof.
  unfold pageFilename. pose proof (slugify_slug_chars (page_title page)) as S.
  split; [now exists (slugify (page_title page))|]. split.
  - rewrite chars_app. apply Forall_app. split.
    + eapply List.Forall_impl; [|exact S]. apply slug_char_not_path_separator.
    + repeat constructor; discriminate.
  - assert (L : 5 <= String.length (slugify (page_title page) +:+ ".html")).
    { rewrite <- chars_length, chars_app, length_app. simpl. lia. }
    split; intros E; rewrite E in L; simpl in L; lia.
Qed.

Lemma write_pages_lookup render_page data :
  forall files files' : gmap string string,
    for_of data files (write_page render_page) = Ok files' ->
    (forall page, In page data -> exists c, render_page page = Ok c) /\
    forall name,
      files' !! name = match last_page_named name data with
                       | Some page => attempt (render_page page)
                       | None => files !! name
                       end.
Proof.
  induction data as [|page r IH]; cbn [for_of last_page_named]; intros files files' H.
  - injection H as <-. split; [intros ? []|reflexivity].
  - destruct (render_page page) as [c|] eqn:R.
    2: { assert (W : write_page render_page files page = Throw e)
           by (unfold write_page; now rewrite R).
         rewrite W in H. discriminate H. }
    assert (W : write_page render_page files page
                = Ok (<[pageFilename page := c]> files))
      by (unfold write_page; now rewrite R).
    rewrite W, bind_ok in H. destruct (IH _ _ H) as [All L]. split.
    + intros q [<-|Hq]; eauto.
    + intros name. rewrite L. destruct (last_page_named name r); [reflexivity|].
      destruct (String.eqb (pageFilename page) name) eqn:E.
      * apply String.eqb_eq in E. subst name. rewrite R. apply lookup_insert_eq.
      * apply String.eqb_neq in E. now apply lookup_insert_ne.
Qed.

Lemma last_page_named_app name a b :
  last_page_named name (a ++ b)
  = match last_page_named name b with
    | Some page => Some page
    | None => last_page_named name a
    end.
Proof.
  induction a as [|page r IH]; simpl; [now destruct (last_page_named name b)|].
  rewrite IH. now destruct (last_page_named name b).
Qed.

Lemma last_page_named_none name data :
  Forall (fun q => pageFilename q <> name) data -> last_page_named name data = None.
Proof.
  induction 1 as [|q r Hq _ IH]; simpl; [reflexivity|]. rewrite IH.
  apply String.eqb_neq in Hq. now rewrite Hq.
Qed.

(** X17.  When [generateSite] returns, every page was rendered, and each
    file of the output directory holds what was written to it last: the
    rendering of the last page with that file name, else the index page for
    [index.html], else what it held before.  So of several pages whose
    titles have the same slug only the last one is kept, and a page whose
    slug is [index] replaces the index page. *)
Theorem generateSite_files
    (render_index : list PageData -> result string)
    (render_page : PageData -> result string)
    (files files' : gmap string string) (data : list PageData) :
  generateSite render_index render_page files data = Ok files' ->
  exists indexContent,
    render_index data = Ok indexContent /\
    (forall page, In page data -> exists c, render_page page = Ok c) /\
    (forall name,
       files' !! name = match last_page_named name data with
                        | Some page => attempt (render_page page)
                        | None => <["index.html" := indexContent]> files !! name
                        end) /\
    (forall a page b,
       data = a ++ page :: b ->
       Forall (fun q => pageFilename q <> pageFilename page) b ->
       files' !! pageFilename page = attempt (render_page page)).
Proof.
  unfold generateSite. destruct (render_index data) as [indexContent|]; [|discriminate].
  rewrite bind_ok. intros H. exists indexContent. split; [reflexivity|].
  destruct (write_pages_lookup _ _ _ _ H) as [All L].
  split; [exact All|]. split; [exact L|].
  intros a page b -> Hb. rewrite L, last_page_named_app. cbn [last_page_named].
  now rewrite (last_page_named_none _ _ Hb), String.eqb_refl.
Qed.

Lemma generateSite_files_witness :
  exists files' : gmap string string,
    generateSite (fun _ => Ok "index") (fun page => Ok (page_title page)) ∅
      sample_pages = Ok files' /\
    files' !! "my-page.html" = Some "my page!" /\
    files' !! "index.html" = Some "Index".
Proof.
  destruct (generateSite (fun _ => Ok "index") (fun page => Ok (page_title page)) ∅
              sample_pages) as [files'|e] eqn:E; [|discriminate E].
  exists files'. split; [reflexivity|].
  destruct (generateSite_files _ _ _ _ _ E) as (? & _ & _ & L & _).
  split; exact (L _).
Defined.

(** ** Configuration and fetching *)

Lemma spread_entries_lookup (es : list (string * value)) :
  forall (config : gmap string value) k,
    (forall v, ~ In (k, v) es) ->
    fold_left (fun c entry => <[fst entry := snd entry]> c) es config !! k
    = config !! k.
Proof.
  induction es as [|[k' v'] r IH]; intros config k H; [reflexivity|].
  cbn [fold_left fst snd]. rewrite IH.
  - apply lookup_insert_ne. intros ->. apply (H v'). now left.
  - intros v Hv. apply (H v). now right.
Qed.

Lemma spread_lookup_last (config : gmap string value) userConfig pre k v post :
  entries userConfig = pre ++ (k, v) :: post ->
  (forall v', ~ In (k, v') post) ->
  spread config userConfig !! k = Some v.
Proof.
  intros E H. unfold spread. rewrite E, fold_left_app. cbn [fold_left fst snd].
  rewrite (spread_entries_lookup post _ k H). apply lookup_insert_eq.
Qed.

(** X18.  A setting the configuration file does not name keeps its default
    (for the token and the database id, the environment variable); a setting
    it names takes the file's value, whatever the default was; and without a
    file, or with one that cannot be parsed, the defaults stay. *)
Theorem load_config_lookup (env_token env_database userConfig : value) :
  (forall k,
     (forall v, ~ In (k, v) (entries userConfig)) ->
     load_config env_token env_database (Some (Some userConfig)) !! k
     = default_config env_token env_database !! k) /\
  (forall pre k v post,
     entries userConfig = pre ++ (k, v) :: post ->
     (forall v', ~ In (k, v') post) ->
     load_config env_token env_database (Some (Some userConfig)) !! k = Some v) /\
  load_config env_token env_database None = default_config env_token env_database /\
  load_config env_token env_database (Some None)
  = default_config env_token env_database.
Proof.
  split; [|split; [|split; reflexivity]].
  - intros k H. apply spread_entries_lookup, H.
  - intros pre k v post E H. exact (spread_lookup_last _ _ _ _ _ _ E H).
Qed.

Lemma fetch_guard axios_post axios_get (config : gmap string value) :
  fetchNotionData axios_post axios_get config = Failed MissingCredentials <->
  truthy (config_field config "notionToken") = false \/
  truthy (config_field config "databaseId") = false.
Proof.
  unfold fetchNotionData.
  destruct (truthy (config_field config "notionToken")),
    (truthy (config_field config "databaseId")); cbn [negb orb];
    try (split; auto; fail).
  split; [|intros [[=]|[=]]].
  destruct (to_string _); [|intros [=]].
  destruct (query_pages axios_post config ≫= _); intros [=].
Qed.

(** X19.  A configuration file that sets the token or the database id to an
    empty value hides the environment variable: fetching fails on the guard
    whatever the environment holds.  The file [--init] writes is such a
    file, so a run right after [--init] fails until the file is edited. *)
Theorem empty_setting_hides_environment
    (axios_post axios_get : string -> string -> option value)
    (env_token env_database userConfig : value) :
  (forall pre k v post,
     entries userConfig = pre ++ (k, v) :: post ->
     (forall v', ~ In (k, v') post) ->
     k = "notionToken" \/ k = "databaseId" ->
     truthy v = false ->
     fetchNotionData axios_post axios_get
       (load_config env_token env_database (Some (Some userConfig)))
     = Failed MissingCredentials) /\
  fetchNotionData axios_post axios_get
    (load_config env_token env_database (Some (Some init_config)))
  = Failed MissingCredentials.
Proof.
  assert (G : forall userConfig pre k v post,
            entries userConfig = pre ++ (k, v) :: post ->
            (forall v', ~ In (k, v') post) ->
            k = "notionToken" \/ k = "databaseId" ->
            truthy v = false ->
            fetchNotionData axios_post axios_get
              (load_config env_token env_database (Some (Some userConfig)))
            = Failed MissingCredentials).
  { intros u pre k v post E H Hk Hv. apply fetch_guard. unfold config_field, load_config.
    destruct Hk as [-> | ->]; [left|right];
      now rewrite (spread_lookup_last _ _ _ _ _ _ E H). }
  split; [apply G|].
  apply (G init_config [] "notionToken" (Str "")
           [ ("databaseId", Str ""); ("outputDir", Str "dist");
             ("templatesDir", Str "templates"); ("staticDir", Str "static") ]);
    [reflexivity| |now left|reflexivity].
  intros v' H. simpl in H. repeat destruct H as [H|H]; try discriminate H; exact H.
Qed.

Lemma attempt_get_read v k x : attempt (get v k) = Some x -> read v k = x.
Proof. unfold read. destruct (get v k); simpl; congruence. Qed.

Lemma fetch_page_step axios_get (config : gmap string value) contentData page contentData' :
  fetch_page axios_get (authorization_of config) contentData page = Some contentData' ->
  (listed axios_get config page = false /\ contentData' = contentData) \/
  (listed axios_get config page = true /\
   exists pd, contentData' = contentData ++ [pd] /\
              page_data_of axios_get config page pd).
Proof.
  unfold fetch_page, listed, children_of, page_data_of.
  destruct (attempt (get page "id")) as [pageId|] eqn:Gid; [|discriminate].
  rewrite (attempt_get_read _ _ _ Gid). cbn [mbind option_bind].
  destruct (attempt (children_url pageId)) as [pageUrl|] eqn:Url; [|discriminate].
  cbn [mbind option_bind].
  destruct (axios_get pageUrl _) as [blocksResponse|] eqn:Ax; [|discriminate].
  cbn [mbind option_bind].
  destruct (attempt (get blocksResponse "status")) as [status|] eqn:Gs; [|discriminate].
  rewrite (attempt_get_read _ _ _ Gs). cbn [mbind option_bind].
  destruct (is_200 status); [|intros [= <-]; now left].
  destruct (extractTitle page) as [title|]; [|discriminate]. cbn [attempt mbind option_bind].
  destruct (attempt (get blocksResponse "data")) as [data|] eqn:Gd; [|discriminate].
  apply attempt_get_read in Gd. cbn [mbind option_bind].
  destruct (attempt (get data "results")) as [results|] eqn:Gr; [|discriminate].
  apply attempt_get_read in Gr. cbn [mbind option_bind].
  destruct (iterate results) as [blocks|] eqn:It; [|discriminate].
  cbn [attempt mbind option_bind].
  destruct (processBlocks blocks) as [content|] eqn:Pb; [|discriminate].
  cbn [attempt mbind option_bind].
  destruct (extractMetadata page) as [metadata|]; [|discriminate].
  cbn [attempt mbind option_bind]. intros [= <-]. right. split; [reflexivity|].
  eexists. split; [reflexivity|]. cbn [page_id page_title page_content page_metadata].
  repeat split. exists blocksResponse, blocks. unfold children_of.
  rewrite (attempt_get_read _ _ _ Gid), Url. cbn [mbind option_bind].
  rewrite Ax, Gd, Gr. now repeat split.
Qed.

Lemma fetch_pages_loop axios_get (config : gmap string value) pages :
  forall contentData contentData',
    for_of_try pages contentData (fetch_page axios_get (authorization_of config))
    = Some contentData' ->
    exists new,
      contentData' = contentData ++ new /\
      Forall2 (page_data_of axios_get config)
              (List.filter (listed axios_get config) pages) new.
Proof.
  induction pages as [|page r IH]; cbn [for_of_try List.filter]; intros acc acc' H.
  - injection H as <-. exists []. split; [now rewrite app_nil_r|constructor].
  - destruct (fetch_page axios_get _ acc page) as [acc1|] eqn:E; [|discriminate H].
    cbn [mbind option_bind] in H. destruct (IH _ _ H) as (new & -> & F).
    destruct (fetch_page_step _ _ _ _ _ E) as [[-> ->]|(-> & pd & -> & Hpd)].
    + exists new. now split.
    + exists (pd :: new). split; [now rewrite <- app_assoc|now constructor].
Qed.

(** X20.  When [fetchNotionData] returns, its result lists, in the order of
    the database query, exactly the pages whose block request answered with
    status 200, each with the page id and with the title, body and metadata
    the three extractors return for it.  A page answered with another status
    is left out silently; a page on which an extractor throws cannot occur
    in a returned result: the whole fetch fails instead. *)
Theorem fetchNotionData_pages
    (axios_post axios_get : string -> string -> option value)
    (config : gmap string value) (contentData : list PageData) :
  fetchNotionData axios_post axios_get config = Fetched contentData ->
  exists pages,
    query_pages axios_post config = Some pages /\
    Forall2 (page_data_of axios_get config)
            (List.filter (listed axios_get config) pages) contentData.
Proof.
  unfold fetchNotionData.
  destruct (negb _ || negb _); [discriminate|].
  destruct (to_string _); [|discriminate].
  destruct (query_pages axios_post config) as [pages|]; [|discriminate].
  cbn [mbind option_bind].
  destruct (for_of_try pages [] _) as [data|] eqn:E; [|discriminate].
  intros [= <-]. exists pages. split; [reflexivity|].
  destruct (fetch_pages_loop _ _ _ _ _ E) as (new & -> & F). exact F.
Qed.

Lemma fetchNotionData_pages_witness :
  exists contentData pages,
    fetchNotionData sample_post sample_get
      (default_config (Str "secret") (Str "db")) = Fetched contentData /\
    query_pages sample_post (default_config (Str "secret") (Str "db")) = Some pages /\
    Forall2 (page_data_of sample_get (default_config (Str "secret") (Str "db")))
            (List.filter (listed sample_get (default_config (Str "secret") (Str "db")))
                         pages)
            contentData.
Proof.
  destruct (fetchNotionData sample_post sample_get
              (default_config (Str "secret") (Str "db"))) as [contentData|e] eqn:E.
  - destruct (fetchNotionData_pages _ _ _ _ E) as (pages & Q & F).
    exists contentData, pages. repeat split; assumption.
  - exfalso. vm_compute in E. discriminate E.
Defined.
